(** * Kodah chat front-end: the streaming-response ingestion pipeline

    A shallow embedding of the two [sendMessage] implementations of the
    repository,

    - [src/static/main.js]      (module [MainJs]:  token variant), and
    - [src/unnamed/part_000]    (module [Part000]: typed chain/final variant),

    together with the JavaScript built-ins they call ([String.prototype.split],
    [startsWith], [slice], [includes], [trim], [JSON.parse], property access,
    truthiness and string coercion).

    The state kept is what the streaming code reads and writes: the local
    variables of an activation of [sendMessage], the content and visibility
    of the elements it creates, the console, and the page state shared by
    the activations.  A chunk is taken after [TextDecoder.decode].  Left out
    are syntax highlighting of rendered code, the scroll position itself
    (scroll requests are counted), the browser history, the refresh of the
    chat list, the dots of the typing indicator and authentication. *)

From Stdlib Require Import String Ascii.
From Stdlib Require Import List NArith ZArith Arith Bool Lia.
From Stdlib Require DecimalN DecimalPos.
Import ListNotations.

Set Implicit Arguments.

(* ================================================================== *)
(** * JavaScript strings *)
(* ================================================================== *)

(** A JavaScript string is a finite sequence of UTF-16 code units. *)
Module JsString.

Definition code_unit := N.
Definition jsstring := list code_unit.

(** Literals: the code units of an ASCII literal of the source. *)
Definition js (s : String.string) : jsstring :=
  map Ascii.N_of_ascii (String.list_ascii_of_string s).

(** A literal of the source that contains double quotes, written here with
    an apostrophe in place of each double quote (code unit 39 becomes 34). *)
Definition jq (s : String.string) : jsstring :=
  map (fun c => if (c =? 39)%N then 34%N else c) (js s).

Arguments js s%_string.
Arguments jq s%_string.

Definition eqb (a b : jsstring) : bool :=
  if list_eq_dec N.eq_dec a b then true else false.

(** [s.startsWith(p)] *)
Fixpoint startsWith (p s : jsstring) : bool :=
  match p, s with
  | [], _ => true
  | _ :: _, [] => false
  | a :: p', b :: s' => N.eqb a b && startsWith p' s'
  end.

(** [s.slice(n)] for [0 <= n]. *)
Definition slice (n : nat) (s : jsstring) : jsstring := skipn n s.

(** [s.includes(p)] *)
Fixpoint includes (p s : jsstring) : bool :=
  startsWith p s ||
  match s with
  | [] => false
  | _ :: s' => includes p s'
  end.

(** [s.indexOf(p)]; [None] stands for [-1]. *)
Fixpoint indexOf (p s : jsstring) : option nat :=
  if startsWith p s then Some 0
  else match s with
       | [] => None
       | _ :: s' => option_map S (indexOf p s')
       end.

(** [s.split(sep)] for a separator of one code unit, as in [split('\n')]. *)
Fixpoint split (sep : code_unit) (s : jsstring) : list jsstring :=
  match s with
  | [] => [[]]
  | c :: s' =>
      if N.eqb c sep then [] :: split sep s'
      else match split sep s' with
           | [] => [[c]]
           | l :: ls => (c :: l) :: ls
           end
  end.

(** [ls.join(sep)] *)
Fixpoint join (sep : code_unit) (ls : list jsstring) : jsstring :=
  match ls with
  | [] => []
  | [l] => l
  | l :: ls' => l ++ sep :: join sep ls'
  end.

Definition LF : code_unit := 10%N.

(** White space and line terminators removed by [String.prototype.trim]. *)
Definition is_trim_space (c : code_unit) : bool :=
  ((9 <=? c) && (c <=? 13) || (c =? 32) || (c =? 160) || (c =? 5760)
   || (8192 <=? c) && (c <=? 8202) || (c =? 8232) || (c =? 8233)
   || (c =? 8239) || (c =? 8287) || (c =? 12288) || (c =? 65279))%N.

Fixpoint trimStart (s : jsstring) : jsstring :=
  match s with
  | [] => []
  | c :: s' => if is_trim_space c then trimStart s' else s
  end.

Definition trimEnd (s : jsstring) : jsstring := rev (trimStart (rev s)).

(** [s.trim()] *)
Definition trim (s : jsstring) : jsstring := trimEnd (trimStart s).

End JsString.
Import JsString.

(* ================================================================== *)
(** * JavaScript values and [JSON.parse] *)
(* ================================================================== *)

Module Json.

(** The values [JSON.parse] can return, and [undefined] (the result of
    reading an absent property).  A number keeps its source literal: the
    model does not interpret IEEE doubles. *)
#[warnings="-register-all"]
Inductive value : Type :=
| VUndefined
| VNull
| VBool (b : bool)
| VNum (literal : jsstring)
| VStr (s : jsstring)
| VArr (elems : list value)
| VObj (members : list (jsstring * value)).

Definition is_ws (c : code_unit) : bool :=
  ((c =? 32) || (c =? 9) || (c =? 10) || (c =? 13))%N.

Fixpoint skip_ws (s : jsstring) : jsstring :=
  match s with
  | [] => []
  | c :: s' => if is_ws c then skip_ws s' else s
  end.

Definition is_digit (c : code_unit) : bool := ((48 <=? c) && (c <=? 57))%N.

Definition hex_val (c : code_unit) : option N :=
  if is_digit c then Some (c - 48)%N
  else if ((97 <=? c) && (c <=? 102))%N then Some (c - 87)%N
  else if ((65 <=? c) && (c <=? 70))%N then Some (c - 55)%N
  else None.

Definition hex4 (a b c d : code_unit) : option code_unit :=
  match hex_val a, hex_val b, hex_val c, hex_val d with
  | Some x, Some y, Some z, Some w => Some (((x * 16 + y) * 16 + z) * 16 + w)%N
  | _, _, _, _ => None
  end.

(** The single-character escapes of a JSON string. *)
Definition escape (e : code_unit) : option code_unit :=
  if (e =? 34)%N then Some 34%N          (* quotation mark *)
  else if (e =? 92)%N then Some 92%N     (* reverse solidus *)
  else if (e =? 47)%N then Some 47%N     (* solidus *)
  else if (e =? 98)%N then Some 8%N      (* b: backspace *)
  else if (e =? 102)%N then Some 12%N    (* f: form feed *)
  else if (e =? 110)%N then Some 10%N    (* n: line feed *)
  else if (e =? 114)%N then Some 13%N    (* r: carriage return *)
  else if (e =? 116)%N then Some 9%N     (* t: tab *)
  else None.

(** The characters of a string literal after its opening quote, up to and
    including the closing quote. *)
Fixpoint parse_chars (s : jsstring) : option (jsstring * jsstring) :=
  match s with
  | [] => None
  | c :: s1 =>
      if (c =? 34)%N then Some ([], s1)
      else if (c =? 92)%N then
        match s1 with
        | [] => None
        | e :: s2 =>
            if (e =? 117)%N then
              match s2 with
              | h1 :: h2 :: h3 :: h4 :: s3 =>
                  match hex4 h1 h2 h3 h4, parse_chars s3 with
                  | Some u, Some (str, rest) => Some (u :: str, rest)
                  | _, _ => None
                  end
              | _ => None
              end
            else
              match escape e, parse_chars s2 with
              | Some u, Some (str, rest) => Some (u :: str, rest)
              | _, _ => None
              end
        end
      else if (c <? 32)%N then None
      else match parse_chars s1 with
           | Some (str, rest) => Some (c :: str, rest)
           | None => None
           end
  end.

Fixpoint take_digits (s : jsstring) : jsstring * jsstring :=
  match s with
  | [] => ([], [])
  | c :: s' =>
      if is_digit c then let (ds, r) := take_digits s' in (c :: ds, r)
      else ([], s)
  end.

Definition parse_int (s : jsstring) : option (jsstring * jsstring) :=
  match s with
  | [] => None
  | c :: s' =>
      if (c =? 48)%N then Some ([c], s')
      else if is_digit c then let (ds, r) := take_digits s' in Some (c :: ds, r)
      else None
  end.

Definition parse_frac (s : jsstring) : option (jsstring * jsstring) :=
  match s with
  | c :: s' =>
      if (c =? 46)%N then
        match take_digits s' with
        | ([], _) => None
        | (ds, r) => Some (c :: ds, r)
        end
      else Some ([], s)
  | [] => Some ([], s)
  end.

Definition parse_exp (s : jsstring) : option (jsstring * jsstring) :=
  match s with
  | c :: s' =>
      if ((c =? 101) || (c =? 69))%N then
        let (sign, s'') :=
          match s' with
          | d :: t => if ((d =? 43) || (d =? 45))%N then ([d], t) else ([], s')
          | [] => ([], s')
          end in
        match take_digits s'' with
        | ([], _) => None
        | (ds, r) => Some (c :: sign ++ ds, r)
        end
      else Some ([], s)
  | [] => Some ([], s)
  end.

(** [-? int frac? exp?] *)
Definition parse_number (s : jsstring) : option (jsstring * jsstring) :=
  let (sign, s0) :=
    match s with
    | c :: s' => if (c =? 45)%N then ([c], s') else ([], s)
    | [] => ([], s)
    end in
  match parse_int s0 with
  | None => None
  | Some (i, s1) =>
      match parse_frac s1 with
      | None => None
      | Some (f, s2) =>
          match parse_exp s2 with
          | None => None
          | Some (e, s3) => Some (sign ++ i ++ f ++ e, s3)
          end
      end
  end.

Definition expect (lit : jsstring) (v : value) (s : jsstring)
  : option (value * jsstring) :=
  if startsWith lit s then Some (v, skipn (length lit) s) else None.

(** Recursive descent on the JSON grammar.  [fuel] bounds the nesting of the
    calls; [JSON_parse] supplies more than any text can use. *)
Fixpoint parse_value (fuel : nat) (s : jsstring) {struct fuel}
  : option (value * jsstring) :=
  match fuel with
  | O => None
  | S fuel' =>
      match s with
      | [] => None
      | c :: s1 =>
          if (c =? 34)%N then
            match parse_chars s1 with
            | Some (str, rest) => Some (VStr str, rest)
            | None => None
            end
          else if (c =? 91)%N then
            match skip_ws s1 with
            | d :: s2 =>
                if (d =? 93)%N then Some (VArr [], s2)
                else match parse_elements fuel' (d :: s2) with
                     | Some (vs, rest) => Some (VArr vs, rest)
                     | None => None
                     end
            | [] => None
            end
          else if (c =? 123)%N then
            match skip_ws s1 with
            | d :: s2 =>
                if (d =? 125)%N then Some (VObj [], s2)
                else match parse_members fuel' (d :: s2) with
                     | Some (ms, rest) => Some (VObj ms, rest)
                     | None => None
                     end
            | [] => None
            end
          else if (c =? 116)%N then expect (js "true") (VBool true) s
          else if (c =? 102)%N then expect (js "false") (VBool false) s
          else if (c =? 110)%N then expect (js "null") VNull s
          else match parse_number s with
               | Some (lit, rest) => Some (VNum lit, rest)
               | None => None
               end
      end
  end

(** [value (ws ',' ws value)* ws ']'], the input starting at a value. *)
with parse_elements (fuel : nat) (s : jsstring) {struct fuel}
  : option (list value * jsstring) :=
  match fuel with
  | O => None
  | S fuel' =>
      match parse_value fuel' s with
      | None => None
      | Some (v, r) =>
          match skip_ws r with
          | d :: r1 =>
              if (d =? 93)%N then Some ([v], r1)
              else if (d =? 44)%N then
                match parse_elements fuel' (skip_ws r1) with
                | Some (vs, rest) => Some (v :: vs, rest)
                | None => None
                end
              else None
          | [] => None
          end
      end
  end

(** [string ws ':' ws value (ws ',' ws member)* ws '}'], the input starting
    at a key. *)
with parse_members (fuel : nat) (s : jsstring) {struct fuel}
  : option (list (jsstring * value) * jsstring) :=
  match fuel with
  | O => None
  | S fuel' =>
      match s with
      | q :: s1 =>
          if (q =? 34)%N then
            match parse_chars s1 with
            | None => None
            | Some (k, r) =>
                match skip_ws r with
                | col :: r1 =>
                    if (col =? 58)%N then
                      match parse_value fuel' (skip_ws r1) with
                      | None => None
                      | Some (v, r2) =>
                          match skip_ws r2 with
                          | d :: r3 =>
                              if (d =? 125)%N then Some ([(k, v)], r3)
                              else if (d =? 44)%N then
                                match parse_members fuel' (skip_ws r3) with
                                | Some (ms, rest) => Some ((k, v) :: ms, rest)
                                | None => None
                                end
                              else None
                          | [] => None
                          end
                      end
                    else None
                | [] => None
                end
            end
          else None
      | [] => None
      end
  end.

(** [JSON.parse(text)]: [None] stands for the [SyntaxError] it throws. *)
Definition JSON_parse (text : jsstring) : option value :=
  match parse_value (2 * length text + 2) (skip_ws text) with
  | Some (v, rest) =>
      match skip_ws rest with
      | [] => Some v
      | _ :: _ => None
      end
  | None => None
  end.

(** ** Operations of the language on these values *)

(** The value bound to [k] among the members of a parsed object: of two
    members with one key the later one wins; [undefined] if there is none. *)
Fixpoint lookup (k : jsstring) (ms : list (jsstring * value)) : value :=
  match ms with
  | [] => VUndefined
  | (k', v) :: ms' =>
      match lookup k ms' with
      | VUndefined => if JsString.eqb k k' then v else VUndefined
      | later => later
      end
  end.

(** [v.k] for the property names the clients read ([type], [content],
    [response]), none of which is found on a built-in prototype.  [None]
    stands for the [TypeError] of reading a property of [null] or
    [undefined]. *)
Definition get_prop (k : jsstring) (v : value) : option value :=
  match v with
  | VUndefined | VNull => None
  | VObj ms => Some (lookup k ms)
  | VBool _ | VNum _ | VStr _ | VArr _ => Some VUndefined
  end.

(** [v === s] for a string literal [s]. *)
Definition strict_eq_str (v : value) (s : jsstring) : bool :=
  match v with
  | VStr t => JsString.eqb t s
  | _ => false
  end.

Fixpoint mantissa (lit : jsstring) : jsstring :=
  match lit with
  | [] => []
  | c :: lit' => if ((c =? 101) || (c =? 69))%N then [] else c :: mantissa lit'
  end.

(** [ToBoolean(v)].  A number is taken to be zero when its literal has no
    digit other than 0 before the exponent (literals that underflow to zero
    as doubles are beyond the model). *)
Definition truthy (v : value) : bool :=
  match v with
  | VUndefined | VNull => false
  | VBool b => b
  | VNum lit => existsb (fun c => (49 <=? c) && (c <=? 57))%N (mantissa lit)
  | VStr s => match s with [] => false | _ :: _ => true end
  | VArr _ | VObj _ => true
  end.

(** [ToString(v)], as applied by [+=] on a string.  A number is rendered by
    its literal (exact for literals in canonical form such as 7 or 1.5). *)
Fixpoint ToString (v : value) : jsstring :=
  match v with
  | VUndefined => js "undefined"
  | VNull => js "null"
  | VBool true => js "true"
  | VBool false => js "false"
  | VNum lit => lit
  | VStr s => s
  | VArr vs =>
      join 44%N (map (fun e => match e with
                                    | VUndefined | VNull => []
                                    | _ => ToString e
                                    end) vs)
  | VObj _ => js "[object Object]"
  end.

End Json.
Import Json.

(* ================================================================== *)
(** * Effects: mutable state and exceptions *)
(* ================================================================== *)

Module Eff.

Inductive error : Type :=
| SyntaxError       (* thrown by JSON.parse *)
| TypeError         (* property of null/undefined, call of a non-function *)
| MarkedError       (* thrown by marked.parse on a non-string *)
| TransportError.   (* rejected fetch / read, or a non-ok response *)

Inductive completion (A : Type) : Type :=
| Normal (a : A)
| Throw (e : error).
Arguments Throw {A} e.

(** A statement sequence over the mutable state [St]: it completes normally
    or abruptly, and in both cases leaves a state behind. *)
Definition M (St A : Type) : Type := St -> completion A * St.

Section Ops.
Context {St : Type}.

Definition ret {A} (a : A) : M St A := fun st => (Normal a, st).

Definition bind {A B} (c : M St A) (k : A -> M St B) : M St B :=
  fun st =>
    match c st with
    | (Normal a, st') => k a st'
    | (Throw e, st') => (Throw e, st')
    end.

Definition throw {A} (e : error) : M St A := fun st => (Throw e, st).

Definition modify (f : St -> St) : M St unit := fun st => (Normal tt, f st).

Definition gets {A} (f : St -> A) : M St A := fun st => (Normal (f st), st).

(** [try { c } catch (e) { handler e }] *)
Definition try_catch {A} (c : M St A) (handler : error -> M St A) : M St A :=
  fun st =>
    match c st with
    | (Normal a, st') => (Normal a, st')
    | (Throw e, st') => handler e st'
    end.

(** A built-in that either returns or throws [e]. *)
Definition lift {A} (e : error) (o : option A) : M St A :=
  match o with
  | Some a => ret a
  | None => throw e
  end.

(** [for (const x of xs) { body x }] *)
Fixpoint for_of {A} (xs : list A) (body : A -> M St unit) : M St unit :=
  match xs with
  | [] => ret tt
  | x :: xs' => bind (body x) (fun _ => for_of xs' body)
  end.

End Ops.

Module Notations.
  Declare Scope eff_scope.
  Delimit Scope eff_scope with eff.
  Notation "x <- c ;; k" := (bind c (fun x => k))
    (at level 61, c at next level, right associativity) : eff_scope.
  Notation "c ;; k" := (bind c (fun _ => k))
    (at level 61, right associativity) : eff_scope.
End Notations.

End Eff.
Import Eff Eff.Notations.

(** What a pending [reader.read()] settles to. *)
Inductive read_result : Type :=
| ReadChunk (text : jsstring)   (* { value, done: false }, value decoded *)
| ReadDone                      (* { done: true } *)
| ReadError.                    (* the promise rejects *)

(** Where an activation of [sendMessage] stands. *)
Inductive status : Type :=
| Reading      (* suspended at [await reader.read()] *)
| Completed    (* left the loop through [break] and returned *)
| Failed.      (* returned through the outer [catch] *)

(** The content of an element: set through [textContent], or through
    [innerHTML] with the output of [marked.parse] (the model keeps the
    Markdown source the HTML was produced from). *)
Inductive content : Type :=
| Empty
| TextContent (s : jsstring)
| Rendered (markdown : jsstring).

(** The phases of an exchange, as the specification names them. *)
Inductive phase : Type :=
| idle | streaming_chain | streaming_final | done | failed.

Definition rank (p : phase) : nat :=
  match p with
  | idle => 0
  | streaming_chain => 1
  | streaming_final => 2
  | done => 3
  | failed => 3
  end.

(** [p] is not later than [q] along idle, streaming_chain, streaming_final,
    done (failed being terminal as done is). *)
Definition precedes (p q : phase) : Prop := rank p <= rank q.

(** The lines the clients hand to their line handler: every chunk is split
    on its own. *)
Definition decoded_lines (chunks : list jsstring) : list jsstring :=
  concat (map (split LF) chunks).

Definition error_message : jsstring := js "Error: Failed to send message".

(* ================================================================== *)
(** * The page: state shared by the activations of [sendMessage] *)
(* ================================================================== *)

(** Requests issued to the backend. *)
Inductive request : Type :=
| CreateChat (model : jsstring)
| SendChat (message model : jsstring) (chat_id : option N).

(** A child of [#chatMessages]: a user bubble, or the assistant element
    owned by the activation [id] of [sendMessage] (the element is referenced
    from the container and from the closure of that activation). *)
Inductive child : Type :=
| UserMessage (markdown : jsstring)
| AssistantMessage (id : nat).

(** [X] is the type of the local state of one activation. *)
Record page (X : Type) : Type := mkPage {
  messageInput : jsstring;       (* messageInput.value *)
  modelSelect : jsstring;        (* model.value *)
  currentChatId : option N;      (* null, or a chat id *)
  lastUserMessage : jsstring;
  chatMessages : list child;     (* children of #chatMessages *)
  requests : list request;       (* in the order issued *)
  exchanges : list X             (* activations of sendMessage, by id *)
}.

(** What the environment answers to one activation of [sendMessage]. *)
Record world : Type := mkWorld {
  created : option N;            (* chat_id of the chat-creation response;
                                    None if that request fails *)
  atBottom : bool;               (* viewport within 50px of the bottom *)
  responded : bool;              (* the chat request yields an ok response *)
  reads : list read_result       (* what the successive reads settle to *)
}.

(** [!id] for a chat id or [null]. *)
Definition falsy_id (o : option N) : bool :=
  match o with
  | None => true
  | Some n => (n =? 0)%N
  end.

Fixpoint update_at {X} (i : nat) (f : X -> X) (xs : list X) : list X :=
  match xs, i with
  | [], _ => []
  | x :: xs', O => f x :: xs'
  | x :: xs', S i' => x :: update_at i' f xs'
  end.

Section Page.
Variable X : Type.

(** [createNewChat()]: on success the chat id is stored, the message list is
    emptied and the id returned; on failure [null] is returned. *)
Definition createNewChat (w : world) (p : page X) : page X * option N :=
  let rs := requests p ++ [CreateChat (modelSelect p)] in
  match created w with
  | Some id =>
      (mkPage (messageInput p) (modelSelect p) (Some id) (lastUserMessage p)
              [] rs (exchanges p), Some id)
  | None =>
      (mkPage (messageInput p) (modelSelect p) (currentChatId p)
              (lastUserMessage p) (chatMessages p) rs (exchanges p), None)
  end.

(** The user types [text] into the message input. *)
Definition type_message (text : jsstring) (p : page X) : page X :=
  mkPage text (modelSelect p) (currentChatId p) (lastUserMessage p)
         (chatMessages p) (requests p) (exchanges p).

(** The activation [id] is resumed by [resume]; the others stay suspended. *)
Definition deliver (resume : X -> X) (id : nat) (p : page X) : page X :=
  mkPage (messageInput p) (modelSelect p) (currentChatId p)
         (lastUserMessage p) (chatMessages p) (requests p)
         (update_at id resume (exchanges p)).

End Page.

(* ================================================================== *)
(** * [src/static/main.js]: the token variant *)
(* ================================================================== *)

Module MainJs.

Local Open Scope eff_scope.

(** The local state of one activation of [sendMessage] (lines 302-329). *)
Record exchange : Type := mkExchange {
  fullMessage : jsstring;
  assistantMessageEl : content;
  isAtBottom : bool;
  scrollFrames : nat;              (* requestAnimationFrame callbacks *)
  console : list error;            (* console.error calls *)
  state : status
}.

Definition fresh (at_bottom : bool) : exchange :=
  mkExchange [] (TextContent (js "Assistant is typing...")) at_bottom 0 []
             Reading.

Definition console_error (e : error) : M exchange unit :=
  modify (fun x => mkExchange (fullMessage x) (assistantMessageEl x)
                              (isAtBottom x) (scrollFrames x)
                              (console x ++ [e]) (state x)).

(** Lines 343-354: [fullMessage += data.response], the element is rendered
    again from the whole of [fullMessage], and a scroll is scheduled if the
    user was at the bottom. *)
Definition append_response (r : value) : M exchange unit :=
  modify (fun x =>
    let full := fullMessage x ++ ToString r in
    mkExchange full (Rendered full) (isAtBottom x)
               (if isAtBottom x then S (scrollFrames x) else scrollFrames x)
               (console x) (state x)).

(** Lines 342-355, the statements after [JSON.parse]. *)
Definition handle_data (data : value) : M exchange unit :=
  r <- lift TypeError (get_prop (js "response") data) ;;
  if truthy r then append_response r else ret tt.

(** The inner [try]/[catch] around a parsed payload, lines 340-358. *)
Definition dispatch (data : value) (x : exchange) : exchange :=
  snd (try_catch (handle_data data) (fun e => console_error e) x).

(** Lines 339-359, the body of [for (const line of lines)]. *)
Definition on_line (line : jsstring) : M exchange unit :=
  if startsWith (js "data: ") line then
    try_catch
      (data <- lift SyntaxError (JSON_parse (slice 6 line)) ;;
       handle_data data)
      (fun e => console_error e)
  else ret tt.

(** Lines 335-360: one decoded chunk. *)
Definition on_chunk (chunk : jsstring) : M exchange unit :=
  for_of (split LF chunk) on_line.

(** Lines 332-360: one iteration of [while (true)]; [true] to go on. *)
Definition iteration (r : read_result) : M exchange bool :=
  match r with
  | ReadError => throw TransportError
  | ReadDone => ret false
  | ReadChunk chunk => on_chunk chunk ;; ret true
  end.

(** Lines 363-366, the outer [catch]. *)
Definition on_error (e : error) : M exchange unit :=
  console_error e ;;
  modify (fun x => mkExchange (fullMessage x) (TextContent error_message)
                              (isAtBottom x) (scrollFrames x) (console x)
                              (state x)).

Definition set_state (s : status) (x : exchange) : exchange :=
  mkExchange (fullMessage x) (assistantMessageEl x) (isAtBottom x)
             (scrollFrames x) (console x) s.

(** The activation is resumed with the result of its pending read and runs
    to its next suspension or to its return. *)
Definition resume (r : read_result) (x : exchange) : exchange :=
  match state x with
  | Reading =>
      match iteration r x with
      | (Normal true, x') => x'
      | (Normal false, x') => set_state Completed x'
      | (Throw e, x') => set_state Failed (snd (on_error e x'))
      end
  | Completed | Failed => x
  end.

(** Lines 302-329: the assistant element is created and the request sent;
    a rejected [fetch] or a non-ok response goes to the outer [catch]. *)
Definition open_exchange (w : world) : exchange :=
  let x := fresh (atBottom w) in
  if responded w then x
  else set_state Failed (snd (on_error TransportError x)).

(** Lines 285-329: [sendMessage] up to its first [await reader.read()].
    Returns the id of the activation if one was created. *)
Definition start (w : world) (p : page exchange)
  : page exchange * option nat :=
  let message := trim (messageInput p) in
  match message with
  | [] => (p, None)
  | _ :: _ =>
      let p1 := mkPage (messageInput p) (modelSelect p) (currentChatId p)
                       message (chatMessages p) (requests p) (exchanges p) in
      let model := modelSelect p in
      let after_create :=
        if falsy_id (currentChatId p1) then
          let (p2, newChatId) := createNewChat w p1 in
          if falsy_id newChatId then (p2, false) else (p2, true)
        else (p1, true) in
      match after_create with
      | (p2, false) => (p2, None)
      | (p2, true) =>
          let id := length (exchanges p2) in
          (mkPage [] (modelSelect p2) (currentChatId p2) (lastUserMessage p2)
                  (chatMessages p2 ++ [UserMessage message; AssistantMessage id])
                  (requests p2 ++ [SendChat message model (currentChatId p2)])
                  (exchanges p2 ++ [open_exchange w]),
           Some id)
      end
  end.

(** [sendMessage()] run on its own to its return. *)
Definition sendMessage (w : world) (p : page exchange) : page exchange :=
  match start w p with
  | (p', Some id) =>
      fold_left (fun q r => deliver (resume r) id q) (reads w) p'
  | (p', None) => p'
  end.

(** The decoded chunks of a response body, read one after the other. *)
Definition run_chunks (chunks : list jsstring) (x : exchange) : exchange :=
  fold_left (fun y c => resume (ReadChunk c) y) chunks x.

(** The line handler applied to a sequence of lines. *)
Definition line_run (lines : list jsstring) (x : exchange) : exchange :=
  fold_left (fun y l => snd (on_line l y)) lines x.

(** A sequence of parsed payloads, handled in order. *)
Definition apply_events (events : list value) (x : exchange) : exchange :=
  fold_left (fun y data => dispatch data y) events x.

(** The effect of a non-empty string fragment, in closed form (shown below
    to be what [dispatch] computes). *)
Definition after_token (r : jsstring) (x : exchange) : exchange :=
  mkExchange (fullMessage x ++ r) (Rendered (fullMessage x ++ r))
    (isAtBottom x)
    (if isAtBottom x then S (scrollFrames x) else scrollFrames x)
    (console x) (state x).

(** The payload of the token variant: [{ response }] with a string. *)
Definition token_event (r : jsstring) : value :=
  VObj [(js "response", VStr r)].

(** The phase shown by the assistant element: the typing text until the
    first fragment is rendered. *)
Definition phase_of (x : exchange) : phase :=
  match state x with
  | Completed => done
  | Failed => failed
  | Reading =>
      match assistantMessageEl x with
      | Rendered _ => streaming_final
      | Empty | TextContent _ => idle
      end
  end.

End MainJs.

(* ================================================================== *)
(** * [src/unnamed/part_000]: the typed chain/final variant *)
(* ================================================================== *)

Module Part000.

Local Open Scope eff_scope.

(** [style.display] of a container. *)
Inductive display : Type :=
| DisplayDefault    (* never assigned *)
| DisplayNone
| DisplayBlock.

(** The children the code gives to [chainContainer]. *)
Inductive node : Type :=
| RoleSpan (text : jsstring)          (* span.reasoning-role *)
| ChainContent (markdown : jsstring)  (* div, innerHTML = marked.parse(..) *)
| TextNode (s : jsstring).            (* from innerHTML = plain text *)

(** The local state of one activation of [sendMessage] (lines 329-361):
    the assistant element with its containers, and the local variables. *)
Record exchange : Type := mkExchange {
  chainContainer : list node;
  chainDisplay : display;
  finalContainer : content;
  finalDisplay : display;
  reasoningToggles : list bool;    (* the buttons inserted before
                                      finalContainer, in document order;
                                      true when the class is 'expanded' *)
  indicator : bool;                (* indicatorSpan attached, interval set *)
  currentChain : jsstring;
  finalAnswer : value;
  criticResponses : list value;
  responderResponses : list value;
  scrolls : nat;                   (* assignments to chatMessages.scrollTop *)
  console : list error;            (* console.error calls *)
  state : status
}.

Definition fresh : exchange :=
  mkExchange [] DisplayDefault Empty DisplayNone [] true [] (VStr []) [] []
             0 [] Reading.

Definition set_chainContainer (v : list node) (x : exchange) : exchange :=
  mkExchange v (chainDisplay x) (finalContainer x) (finalDisplay x)
    (reasoningToggles x) (indicator x) (currentChain x) (finalAnswer x)
    (criticResponses x) (responderResponses x) (scrolls x) (console x)
    (state x).

Definition set_chainDisplay (v : display) (x : exchange) : exchange :=
  mkExchange (chainContainer x) v (finalContainer x) (finalDisplay x)
    (reasoningToggles x) (indicator x) (currentChain x) (finalAnswer x)
    (criticResponses x) (responderResponses x) (scrolls x) (console x)
    (state x).

Definition set_finalContainer (v : content) (x : exchange) : exchange :=
  mkExchange (chainContainer x) (chainDisplay x) v (finalDisplay x)
    (reasoningToggles x) (indicator x) (currentChain x) (finalAnswer x)
    (criticResponses x) (responderResponses x) (scrolls x) (console x)
    (state x).

Definition set_finalDisplay (v : display) (x : exchange) : exchange :=
  mkExchange (chainContainer x) (chainDisplay x) (finalContainer x) v
    (reasoningToggles x) (indicator x) (currentChain x) (finalAnswer x)
    (criticResponses x) (responderResponses x) (scrolls x) (console x)
    (state x).

Definition set_reasoningToggles (v : list bool) (x : exchange) : exchange :=
  mkExchange (chainContainer x) (chainDisplay x) (finalContainer x)
    (finalDisplay x) v (indicator x) (currentChain x) (finalAnswer x)
    (criticResponses x) (responderResponses x) (scrolls x) (console x)
    (state x).

Definition set_indicator (v : bool) (x : exchange) : exchange :=
  mkExchange (chainContainer x) (chainDisplay x) (finalContainer x)
    (finalDisplay x) (reasoningToggles x) v (currentChain x) (finalAnswer x)
    (criticResponses x) (responderResponses x) (scrolls x) (console x)
    (state x).

Definition set_finalAnswer (v : value) (x : exchange) : exchange :=
  mkExchange (chainContainer x) (chainDisplay x) (finalContainer x)
    (finalDisplay x) (reasoningToggles x) (indicator x) (currentChain x) v
    (criticResponses x) (responderResponses x) (scrolls x) (console x)
    (state x).

Definition set_criticResponses (v : list value) (x : exchange) : exchange :=
  mkExchange (chainContainer x) (chainDisplay x) (finalContainer x)
    (finalDisplay x) (reasoningToggles x) (indicator x) (currentChain x)
    (finalAnswer x) v (responderResponses x) (scrolls x) (console x)
    (state x).

Definition set_responderResponses (v : list value) (x : exchange)
  : exchange :=
  mkExchange (chainContainer x) (chainDisplay x) (finalContainer x)
    (finalDisplay x) (reasoningToggles x) (indicator x) (currentChain x)
    (finalAnswer x) (criticResponses x) v (scrolls x) (console x)
    (state x).

Definition set_scrolls (v : nat) (x : exchange) : exchange :=
  mkExchange (chainContainer x) (chainDisplay x) (finalContainer x)
    (finalDisplay x) (reasoningToggles x) (indicator x) (currentChain x)
    (finalAnswer x) (criticResponses x) (responderResponses x) v (console x)
    (state x).

Definition set_console (v : list error) (x : exchange) : exchange :=
  mkExchange (chainContainer x) (chainDisplay x) (finalContainer x)
    (finalDisplay x) (reasoningToggles x) (indicator x) (currentChain x)
    (finalAnswer x) (criticResponses x) (responderResponses x) (scrolls x) v
    (state x).

Definition set_state (v : status) (x : exchange) : exchange :=
  mkExchange (chainContainer x) (chainDisplay x) (finalContainer x)
    (finalDisplay x) (reasoningToggles x) (indicator x) (currentChain x)
    (finalAnswer x) (criticResponses x) (responderResponses x) (scrolls x)
    (console x) v.

Definition console_error (e : error) : M exchange unit :=
  modify (fun x => set_console (console x ++ [e]) x).

(** [v.includes(s)] for a string literal [s]: the method of strings and of
    arrays; any other receiver has no such method. *)
Definition includes_method (v : value) (s : jsstring) : option bool :=
  match v with
  | VStr t => Some (includes s t)
  | VArr vs => Some (existsb (fun e => strict_eq_str e s) vs)
  | VUndefined | VNull | VBool _ | VNum _ | VObj _ => None
  end.

(** [marked.parse(v)]: a string is rendered, anything else is refused with
    an exception. *)
Definition marked_parse (v : value) : option jsstring :=
  match v with
  | VStr s => Some s
  | _ => None
  end.

(** The role of a chain segment, lines 390-394: the bucket it is stored in. *)
Inductive role : Type := critic | responder | unknown.

Definition classify (content : value) : M exchange role :=
  isCritic <- lift TypeError (includes_method content (js "Critic:")) ;;
  if isCritic then ret critic
  else
    isResponder <- lift TypeError (includes_method content (js "Responder:")) ;;
    if isResponder then ret responder else ret unknown.

Definition store (r : role) (content : value) : M exchange unit :=
  match r with
  | critic =>
      modify (fun x => set_criticResponses (criticResponses x ++ [content]) x)
  | responder =>
      modify (fun x =>
                set_responderResponses (responderResponses x ++ [content]) x)
  | unknown => ret tt
  end.

(** The text of the role label, line 404. *)
Definition role_label (content : value) : M exchange jsstring :=
  isCritic <- lift TypeError (includes_method content (js "Critic:")) ;;
  ret (if isCritic then js "Critic" else js "Responder").

Definition node_eqb (a b : node) : bool :=
  match a, b with
  | RoleSpan s, RoleSpan t => JsString.eqb s t
  | ChainContent s, ChainContent t => JsString.eqb s t
  | TextNode s, TextNode t => JsString.eqb s t
  | _, _ => false
  end.

(** [parent.insertBefore(new, ref)] on the children of [parent]. *)
Fixpoint insertBefore (new ref : node) (children : list node) : list node :=
  match children with
  | [] => []
  | n :: rest =>
      if node_eqb n ref then new :: n :: rest
      else n :: insertBefore new ref rest
  end.

(** Lines 386-405, the branch [data.type === 'chain']. *)
Definition on_chain (data : value) : M exchange unit :=
  modify (set_chainContainer []) ;;
  content <- lift TypeError (get_prop (js "content") data) ;;
  r <- classify content ;;
  store r content ;;
  html <- lift MarkedError (marked_parse content) ;;
  let chainContent := ChainContent html in
  modify (fun x => set_chainContainer (chainContainer x ++ [chainContent]) x) ;;
  label <- role_label content ;;
  modify (fun x =>
    set_chainContainer
      (insertBefore (RoleSpan label) chainContent (chainContainer x)) x).

(** Lines 408-432, the branch [data.type === 'final']. *)
Definition on_final (data : value) : M exchange unit :=
  modify (set_chainDisplay DisplayNone) ;;
  modify (set_finalDisplay DisplayBlock) ;;
  content <- lift TypeError (get_prop (js "content") data) ;;
  modify (set_finalAnswer content) ;;
  html <- lift MarkedError (marked_parse content) ;;
  modify (set_finalContainer (Rendered html)) ;;
  modify (fun x => set_reasoningToggles (reasoningToggles x ++ [false]) x).

(** Lines 385-433, the statements after [JSON.parse]. *)
Definition handle_data (data : value) : M exchange unit :=
  type <- lift TypeError (get_prop (js "type") data) ;;
  if strict_eq_str type (js "chain") then on_chain data
  else if strict_eq_str type (js "final") then on_final data
  else ret tt.

(** The inner [try]/[catch] around a parsed payload, lines 382-436. *)
Definition dispatch (data : value) (x : exchange) : exchange :=
  snd (try_catch (handle_data data) (fun e => console_error e) x).

(** Lines 381-437, the body of [for (const line of lines)]. *)
Definition on_line (line : jsstring) : M exchange unit :=
  if startsWith (js "data: ") line then
    try_catch
      (data <- lift SyntaxError (JSON_parse (slice 6 line)) ;;
       handle_data data)
      (fun e => console_error e)
  else ret tt.

(** Lines 377-441: one decoded chunk, then the scroll to the bottom. *)
Definition on_chunk (chunk : jsstring) : M exchange unit :=
  for_of (split LF chunk) on_line ;;
  modify (fun x => set_scrolls (S (scrolls x)) x).

(** Lines 374-441: one iteration of [while (true)]; [true] to go on. *)
Definition iteration (r : read_result) : M exchange bool :=
  match r with
  | ReadError => throw TransportError
  | ReadDone => ret false
  | ReadChunk chunk => on_chunk chunk ;; ret true
  end.

(** Lines 443-445, the outer [catch]. *)
Definition on_error (e : error) : M exchange unit :=
  console_error e ;;
  modify (set_chainContainer [TextNode error_message]).

(** Lines 446-450, [finally]: the typing indicator is torn down. *)
Definition finally (x : exchange) : exchange := set_indicator false x.

(** The activation is resumed with the result of its pending read and runs
    to its next suspension or to its return. *)
Definition resume (r : read_result) (x : exchange) : exchange :=
  match state x with
  | Reading =>
      match iteration r x with
      | (Normal true, x') => x'
      | (Normal false, x') => set_state Completed (finally x')
      | (Throw e, x') => set_state Failed (finally (snd (on_error e x')))
      end
  | Completed | Failed => x
  end.

(** A click on the [k]-th reasoning toggle, lines 420-430. *)
Definition click (k : nat) (x : exchange) : exchange :=
  match nth_error (reasoningToggles x) k with
  | None => x
  | Some isExpanded =>
      set_reasoningToggles
        (update_at k negb (reasoningToggles x))
        (set_chainDisplay (if isExpanded then DisplayNone else DisplayBlock) x)
  end.

(** Lines 329-368: the assistant element is created and the request sent;
    a request that fails goes to the outer [catch] and to [finally]. *)
Definition open_exchange (w : world) : exchange :=
  if responded w then fresh
  else set_state Failed (finally (snd (on_error TransportError fresh))).

(** Lines 312-368: [sendMessage] up to its first [await reader.read()].
    Returns the id of the activation if one was created. *)
Definition start (w : world) (p : page exchange)
  : page exchange * option nat :=
  let message := trim (messageInput p) in
  match message with
  | [] => (p, None)
  | _ :: _ =>
      let p1 := mkPage [] (modelSelect p) (currentChatId p) message
                       (chatMessages p ++ [UserMessage message])
                       (requests p) (exchanges p) in
      let after_create :=
        if falsy_id (currentChatId p1) then
          let (p2, newChatId) := createNewChat w p1 in
          if falsy_id newChatId then (p2, false) else (p2, true)
        else (p1, true) in
      match after_create with
      | (p2, false) => (p2, None)
      | (p2, true) =>
          let id := length (exchanges p2) in
          (mkPage (messageInput p2) (modelSelect p2) (currentChatId p2)
                  (lastUserMessage p2)
                  (chatMessages p2 ++ [AssistantMessage id])
                  (requests p2 ++ [SendChat message (modelSelect p2)
                                            (currentChatId p2)])
                  (exchanges p2 ++ [open_exchange w]),
           Some id)
      end
  end.

(** [sendMessage()] run on its own to its return. *)
Definition sendMessage (w : world) (p : page exchange) : page exchange :=
  match start w p with
  | (p', Some id) =>
      fold_left (fun q r => deliver (resume r) id q) (reads w) p'
  | (p', None) => p'
  end.

(** The decoded chunks of a response body, read one after the other. *)
Definition run_chunks (chunks : list jsstring) (x : exchange) : exchange :=
  fold_left (fun y c => resume (ReadChunk c) y) chunks x.

(** The line handler applied to a sequence of lines. *)
Definition line_run (lines : list jsstring) (x : exchange) : exchange :=
  fold_left (fun y l => snd (on_line l y)) lines x.

(** A sequence of parsed payloads, handled in order. *)
Definition apply_events (events : list value) (x : exchange) : exchange :=
  fold_left (fun y data => dispatch data y) events x.

(** ** The effect of the two branches on a string content, in closed form
    (shown below to be what [dispatch] computes) *)

Definition role_of (c : jsstring) : role :=
  if includes (js "Critic:") c then critic
  else if includes (js "Responder:") c then responder
  else unknown.

Definition label_of (c : jsstring) : jsstring :=
  if includes (js "Critic:") c then js "Critic" else js "Responder".

Definition stored (c : jsstring) (x : exchange) : exchange :=
  match role_of c with
  | critic => set_criticResponses (criticResponses x ++ [VStr c]) x
  | responder => set_responderResponses (responderResponses x ++ [VStr c]) x
  | unknown => x
  end.

Definition after_chain (c : jsstring) (x : exchange) : exchange :=
  set_chainContainer [RoleSpan (label_of c); ChainContent c] (stored c x).

Definition after_final (c : jsstring) (x : exchange) : exchange :=
  mkExchange (chainContainer x) DisplayNone (Rendered c) DisplayBlock
    (reasoningToggles x ++ [false]) (indicator x) (currentChain x) (VStr c)
    (criticResponses x) (responderResponses x) (scrolls x) (console x)
    (state x).

(** The phase shown by the assistant element: the final-answer container
    once it is displayed, else the chain panel once it has content. *)
Definition phase_of (x : exchange) : phase :=
  match state x with
  | Completed => done
  | Failed => failed
  | Reading =>
      match finalDisplay x with
      | DisplayBlock => streaming_final
      | DisplayDefault | DisplayNone =>
          match chainContainer x with
          | [] => idle
          | _ :: _ => streaming_chain
          end
      end
  end.

(** The payloads of the typed variant: [{ type: "chain"|"final", content }]
    with a string for content. *)
Definition typed_event (kind content : jsstring) : value :=
  VObj [(js "type", VStr kind); (js "content", VStr content)].

End Part000.

(* ================================================================== *)
(** * The specification's components, for comparison *)
(* ================================================================== *)

Module Spec.

(** Section 4.1, [feed]: the pending fragment is prepended to the chunk and
    the text split on the terminator; all pieces but the last are complete
    lines, the last is the new pending fragment. *)
Definition feed (pending chunk : jsstring) : list jsstring * jsstring :=
  let pieces := split LF (pending ++ chunk) in
  (removelast pieces, last pieces []).

(** Section 4.1, [flush]: the pending fragment, if it is not empty. *)
Definition flush (pending : jsstring) : list jsstring :=
  match pending with
  | [] => []
  | _ :: _ => [pending]
  end.

(** The lines emitted for a chunked stream, the final flush included. *)
Fixpoint reassemble (pending : jsstring) (chunks : list jsstring)
  : list jsstring :=
  match chunks with
  | [] => flush pending
  | c :: cs => let (ls, p) := feed pending c in ls ++ reassemble p cs
  end.

(** Section 4.2: the lines that carry the event-frame prefix. *)
Definition frames (lines : list jsstring) : list jsstring :=
  filter (startsWith (js "data: ")) lines.

(** Sections 4.1 and 4.2 together: the frames decoded for a chunked stream
    are those of the reassembled lines. *)
Definition reassembled_before_decoding (chunks : list jsstring) : Prop :=
  frames (decoded_lines chunks) = frames (reassemble [] chunks).

(** Section 4.3, the tie-break: the role whose marker occurs earliest. *)
Definition earliest_role (content : jsstring) : Part000.role :=
  match indexOf (js "Critic:") content, indexOf (js "Responder:") content with
  | Some i, Some j => if i <? j then Part000.critic else Part000.responder
  | Some _, None => Part000.critic
  | None, Some _ => Part000.responder
  | None, None => Part000.unknown
  end.

End Spec.

(* ================================================================== *)
(** * Scenarios and notions used in the statements *)
(* ================================================================== *)

(** The second scenario of section 8, a frame cut in two by a chunk
    boundary, and the token scenario. *)
Definition split_frame : list jsstring :=
  [jq "data: {'typ"; jq "e':'final','content':'Done.'}" ++ [LF]].

Definition split_token : list jsstring :=
  [jq "data: {'response':'Hel"; jq "lo'}" ++ [LF]].

(** The chain payloads of a sequence of contents. *)
Definition chain_events (contents : list jsstring) : list value :=
  map (Part000.typed_event (js "chain")) contents.

(** What the assistant element of main.js shows for an accumulated text. *)
Definition shown_for (full : jsstring) : content :=
  match full with
  | [] => TextContent (js "Assistant is typing...")
  | _ :: _ => Rendered full
  end.

(** A decoded payload is well formed when, if its type is chain or final,
    its content is a string (the shapes of section 6; any other payload is
    ignorable). *)
Definition well_formed (data : value) : Prop :=
  match data with
  | VObj ms =>
      strict_eq_str (lookup (js "type") ms) (js "chain") = true
      \/ strict_eq_str (lookup (js "type") ms) (js "final") = true ->
      exists c, lookup (js "content") ms = VStr c
  | _ => True
  end.

(** Two messages sent one after the other to an open chat, the second
    before the first response has been read to its end. *)
Definition two_sends : page Part000.exchange :=
  let w := mkWorld None true true [] in
  let p0 := mkPage (js "first") (js "llama3") (Some 4%N) [] [] [] [] in
  let p1 := fst (Part000.start w p0) in
  fst (Part000.start w (type_message (js "second") p1)).

(* ================================================================== *)
(** * Further functions of the two files *)
(* ================================================================== *)

(** ** A whole response body *)

Module Run.

(** The successive results of [reader.read()] handed to one activation. *)
Definition main (rs : list read_result) (x : MainJs.exchange)
  : MainJs.exchange :=
  fold_left (fun y r => MainJs.resume r y) rs x.

Definition part (rs : list read_result) (y : Part000.exchange)
  : Part000.exchange :=
  fold_left (fun z r => Part000.resume r z) rs y.

End Run.

(** The typed payloads of a sequence of (type, content) pairs. *)
Definition typed_events (evs : list (jsstring * jsstring)) : list value :=
  map (fun e => Part000.typed_event (fst e) (snd e)) evs.

(** The content of the last pair whose type is final, if there is one. *)
Definition last_final (evs : list (jsstring * jsstring)) : option jsstring :=
  fold_left (fun acc e =>
               if JsString.eqb (fst e) (js "final") then Some (snd e) else acc)
            evs None.

Definition count_final (evs : list (jsstring * jsstring)) : nat :=
  length (filter (fun e => JsString.eqb (fst e) (js "final")) evs).

Definition is_chunk (r : read_result) : bool :=
  match r with
  | ReadChunk _ => true
  | ReadDone | ReadError => false
  end.

Definition non_empty (s : jsstring) : bool :=
  match s with
  | [] => false
  | _ :: _ => true
  end.


(** ** Frames on the wire *)

Module Wire.

(** [body] is the inside of a JSON string literal that denotes [s]: every
    code unit of [s] is written as itself (if it is neither a control
    character, nor the quotation mark, nor the reverse solidus), as a
    two-character escape, or as a [\uXXXX] escape. *)
Inductive encodes : jsstring -> jsstring -> Prop :=
| enc_end : encodes [] []
| enc_plain (c : code_unit) (body s : jsstring) :
    (c =? 34)%N = false -> (c =? 92)%N = false -> (c <? 32)%N = false ->
    encodes body s -> encodes (c :: body) (c :: s)
| enc_escape (e u : code_unit) (body s : jsstring) :
    escape e = Some u ->
    encodes body s -> encodes (92%N :: e :: body) (u :: s)
| enc_unicode (h1 h2 h3 h4 u : code_unit) (body s : jsstring) :
    hex4 h1 h2 h3 h4 = Some u ->
    encodes body s ->
    encodes (92%N :: 117%N :: h1 :: h2 :: h3 :: h4 :: body) (u :: s).

Definition hex_digit (d : N) : code_unit :=
  if (d <? 10)%N then (48 + d)%N else (87 + d)%N.

(** One encoding of every string: the quotation mark and the reverse
    solidus are escaped, control characters are written [\u00XX]. *)
Definition quote_unit (c : code_unit) : jsstring :=
  if (c =? 34)%N then [92%N; 34%N]
  else if (c =? 92)%N then [92%N; 92%N]
  else if (c <? 32)%N then
    [92%N; 117%N; 48%N; 48%N; hex_digit (c / 16); hex_digit (c mod 16)]
  else [c].

Definition quote (s : jsstring) : jsstring := flat_map quote_unit s.

(** The text of [{ "type": kind, "content": content }], the two strings
    given by the insides of their literals, followed by [tail]. *)
Definition typed_payload (kind content tail : jsstring) : jsstring :=
  jq "{'type':'" ++ kind ++ jq "','content':'" ++ content ++ jq "'}" ++ tail.

(** The text of [{ "response": fragment }], followed by [tail]. *)
Definition token_payload (fragment tail : jsstring) : jsstring :=
  jq "{'response':'" ++ fragment ++ jq "'}" ++ tail.

(** A frame: the prefix and the payload. *)
Definition frame (payload : jsstring) : jsstring := js "data: " ++ payload.

End Wire.


(** ** The address of a chat: [updateURL] and the start of [initChat] /
    [initializeApp] *)

Module Url.

Fixpoint digits (u : Decimal.uint) : jsstring :=
  match u with
  | Decimal.Nil => []
  | Decimal.D0 l => 48%N :: digits l
  | Decimal.D1 l => 49%N :: digits l
  | Decimal.D2 l => 50%N :: digits l
  | Decimal.D3 l => 51%N :: digits l
  | Decimal.D4 l => 52%N :: digits l
  | Decimal.D5 l => 53%N :: digits l
  | Decimal.D6 l => 54%N :: digits l
  | Decimal.D7 l => 55%N :: digits l
  | Decimal.D8 l => 56%N :: digits l
  | Decimal.D9 l => 57%N :: digits l
  end.

(** The string of a non-negative integer in a template literal: its
    decimal digits (for integers that a double holds exactly). *)
Definition Number_toString (n : N) : jsstring := digits (N.to_uint n).

(** [updateURL(chatId)], main.js 48-51 and part_000 158-161: the url pushed
    to the history. *)
Definition updateURL (chatId : option N) : jsstring :=
  if falsy_id chatId then js "/"
  else match chatId with
       | Some n => js "/" ++ Number_toString n
       | None => js "/"
       end.

(** A number as [parseInt] returns it. *)
Inductive number : Type :=
| NaN
| Int (z : Z).

Definition digits_value (ds : jsstring) : N :=
  fold_left (fun acc c => acc * 10 + (c - 48))%N ds 0%N.

(** [parseInt(s, 10)]: leading white space is skipped, then an optional
    sign and the longest run of decimal digits are read. *)
Definition parseInt (s : jsstring) : number :=
  let s1 := trimStart s in
  let (negative, s2) :=
    match s1 with
    | c :: t =>
        if (c =? 45)%N then (true, t)
        else if (c =? 43)%N then (false, t)
        else (false, s1)
    | [] => (false, s1)
    end in
  match fst (take_digits s2) with
  | [] => NaN
  | ds => Int (if negative then - Z.of_N (digits_value ds)
               else Z.of_N (digits_value ds))
  end.

(** main.js 69-76 and part_000 454-463: the chat that is loaded at start
    for the path of the page, if any ([pathParts[1] ? parseInt(..) : null],
    then [if (chatId)]). *)
Definition initial_chat (pathname : jsstring) : option Z :=
  match nth_error (split 47%N pathname) 1 with
  | Some (c :: part) =>
      match parseInt (c :: part) with
      | Int z => if (z =? 0)%Z then None else Some z
      | NaN => None
      end
  | Some [] | None => None
  end.

End Url.


(** ** The list of chats: titles, menus, deletion *)

Module ChatList.

(** [s.replace(/^p/, '')] for a literal [p]. *)
Definition strip_prefix (p s : jsstring) : jsstring :=
  if startsWith p s then skipn (length p) s else s.

(** [s.endsWith(suf)] *)
Definition endsWith (suf s : jsstring) : bool :=
  startsWith (rev suf) (rev s).

(** [s.replace(/suf$/, '')] for a literal [suf]. *)
Definition strip_suffix (suf s : jsstring) : jsstring :=
  if endsWith suf s then firstn (length s - length suf) s else s.

(** main.js 177-180 and part_000 212: the title shown for a chat. *)
Definition displayTitle (title : jsstring) : jsstring :=
  trim (strip_suffix (js "...") (strip_prefix (js "Chat about ") title)).






(** [deleteChat(chatId)], main.js 448-469 and part_000 606-621, for the
    answer to the confirmation and that of the server: when the chat
    deleted is the current one, the messages are cleared and no chat is
    current.  (The request itself and the refresh of the chat list are not
    part of the page state.) *)
Definition deleteChat {X : Type} (confirmed accepted : bool) (chatId : N)
           (p : page X) : page X :=
  if confirmed then
    if accepted then
      match currentChatId p with
      | Some n =>
          if (n =? chatId)%N then
            mkPage (messageInput p) (modelSelect p) None (lastUserMessage p)
                   [] (requests p) (exchanges p)
          else p
      | None => p
      end
    else p
  else p.

(** The timer of the typing indicator, part_000 350-354. *)
Definition tick (dotCount : nat) : nat := (dotCount + 1) mod 4.

Definition indicator_text (dotCount : nat) : jsstring :=
  js "Assistant is typing" ++ repeat 46%N dotCount.

End ChatList.


(** ** Invariants used in the statements *)

(** The typing indicator of part_000 is in place iff the activation reads. *)
Definition indicator_matches (y : Part000.exchange) : Prop :=
  Part000.indicator y
  = match Part000.state y with
    | Reading => true
    | Completed | Failed => false
    end.

(** The user was not at the bottom and no scroll was scheduled. *)
Definition never_scrolled (x : MainJs.exchange) : Prop :=
  MainJs.isAtBottom x = false /\ MainJs.scrollFrames x = 0.




(** ** Attaching a file: [handleFileUpload] *)

Module Upload.

(** A chat id in a template literal. *)
Definition id_text (chatId : option N) : jsstring :=
  match chatId with
  | None => js "null"
  | Some n => Url.Number_toString n
  end.

(** The address the file is posted to: main.js 244, and part_000 116 under
    the [/api] prefix of line 47. *)
Definition upload_url_main (chatId : option N) : jsstring :=
  js "/chat/" ++ id_text chatId ++ js "/upload".

Definition upload_url_part (chatId : option N) : jsstring :=
  js "/api" ++ js "/files/" ++ id_text chatId ++ js "/upload".

(** The note appended to the input, main.js 251 and part_000 281. *)
Definition note (filename : jsstring) : jsstring :=
  js "[Attached file: " ++ filename ++ js "]".

(** [handleFileUpload(event)], main.js 235-257 and part_000 274-285, for a
    page of either client.  [file] tells whether a file was chosen and
    [uploaded] is the file name in the answer of the server, if the upload
    succeeds.  Returns the page and the address posted to, if any.  The
    result of [createNewChat] is not looked at. *)
Definition handleFileUpload {X : Type} (url : option N -> jsstring)
           (w : world) (file : bool) (uploaded : option jsstring)
           (p : page X) : page X * option jsstring :=
  if file then
    let p1 := if falsy_id (currentChatId p) then fst (createNewChat w p)
              else p in
    let address := url (currentChatId p1) in
    match uploaded with
    | Some filename =>
        (mkPage (messageInput p1 ++ LF :: note filename) (modelSelect p1)
                (currentChatId p1) (lastUserMessage p1) (chatMessages p1)
                (requests p1) (exchanges p1),
         Some address)
    | None => (p1, Some address)
    end
  else (p, None).

End Upload.

Unset Implicit Arguments.

(* ================================================================== *)
(** * The scenarios of section 8, run *)
(* ================================================================== *)

Example parse_chain_payload :
  JSON_parse (jq "{'type':'chain','content':'Critic: too vague'}")
  = Some (Part000.typed_event (js "chain") (js "Critic: too vague")).
Proof. vm_compute. reflexivity. Qed.

Example parse_truncated_payload : JSON_parse (jq "{'typ") = None.
Proof. vm_compute. reflexivity. Qed.

Example split_two_lines :
  split LF (js "a" ++ [LF] ++ js "b" ++ [LF]) = [js "a"; js "b"; []].
Proof. vm_compute. reflexivity. Qed.

(** A chain frame, then the final frame in a chunk of its own. *)
Example chain_then_final :
  let y := Part000.run_chunks
             [jq "data: {'type':'chain','content':'Critic: too vague'}"
                 ++ [LF];
              jq "data: {'type':'final','content':'Done.'}" ++ [LF]]
             Part000.fresh in
  Part000.criticResponses y = [VStr (js "Critic: too vague")]
  /\ Part000.finalAnswer y = VStr (js "Done.")
  /\ Part000.finalContainer y = Rendered (js "Done.")
  /\ Part000.chainDisplay y = Part000.DisplayNone
  /\ Part000.phase_of y = streaming_final.
Proof. vm_compute. repeat split. Qed.

(** Two token frames. *)
Example two_tokens :
  MainJs.fullMessage
    (MainJs.run_chunks [jq "data: {'response':'Hel'}" ++ [LF];
                        jq "data: {'response':'lo'}" ++ [LF]]
                       (MainJs.fresh true))
  = js "Hello".
Proof. vm_compute. reflexivity. Qed.

(* ================================================================== *)
(** * Strings: splitting and joining *)
(* ================================================================== *)

Lemma split_not_nil (sep : code_unit) (s : jsstring) : split sep s <> [].
Proof.
  destruct s as [|c s]; simpl; [discriminate|].
  destruct (N.eqb c sep); [discriminate|].
  destruct (split sep s); discriminate.
Qed.

Lemma join_cons_head (sep c : code_unit) (l : jsstring) (ls : list jsstring) :
  join sep ((c :: l) :: ls) = c :: join sep (l :: ls).
Proof. destruct ls; reflexivity. Qed.

(** [s.split(sep).join(sep)] is [s]. *)
Lemma join_split (sep : code_unit) (s : jsstring) :
  join sep (split sep s) = s.
Proof.
  induction s as [|c s IH]; [reflexivity|].
  simpl. destruct (N.eqb_spec c sep) as [->|Hne].
  - pose proof (split_not_nil sep s) as Hnil.
    destruct (split sep s) as [|l ls] eqn:E; [contradiction|].
    change (join sep ([] :: l :: ls)) with (sep :: join sep (l :: ls)).
    now rewrite IH.
  - pose proof (split_not_nil sep s) as Hnil.
    destruct (split sep s) as [|l ls] eqn:E; [contradiction|].
    rewrite join_cons_head. now rewrite IH.
Qed.

Lemma concat_join_split (chunks : list jsstring) :
  concat (map (fun c => join LF (split LF c)) chunks) = concat chunks.
Proof.
  induction chunks as [|c cs IH]; simpl; [reflexivity|].
  now rewrite join_split, IH.
Qed.

Lemma decoded_lines_app (cs1 cs2 : list jsstring) :
  decoded_lines (cs1 ++ cs2) = decoded_lines cs1 ++ decoded_lines cs2.
Proof. unfold decoded_lines. now rewrite map_app, concat_app. Qed.

(* ================================================================== *)
(** * Loops that never complete abruptly *)
(* ================================================================== *)

Section ForOf.
Context {St A : Type}.
Variable body : A -> M St unit.
Hypothesis body_normal : forall a st, fst (body a st) = Normal tt.

Lemma for_of_fold (xs : list A) (st : St) :
  for_of xs body st = (Normal tt, fold_left (fun y a => snd (body a y)) xs st).
Proof.
  revert st. induction xs as [|a xs IH]; intros st; [reflexivity|].
  simpl. unfold bind. specialize (body_normal a st).
  destruct (body a st) as [[[]|e] st']; simpl in *; [apply IH|discriminate].
Qed.

End ForOf.

(* ================================================================== *)
(** * The line handlers *)
(* ================================================================== *)

(** Case analysis on a test of the goal that is not itself a case
    analysis: the next test the program evaluates. *)
Ltac break_inner :=
  match goal with
  | |- context [match ?e with _ => _ end] =>
      lazymatch e with
      | context [match _ with _ => _ end] => fail
      | _ => destruct e eqn:?
      end
  end.

Lemma try_catch_unit_normal {St} (c : M St unit) (h : error -> M St unit)
      (st : St) :
  (forall e st', fst (h e st') = Normal tt) ->
  fst (try_catch c h st) = Normal tt.
Proof.
  intros Hh. unfold try_catch.
  destruct (c st) as [[[]|e] st']; [reflexivity|apply Hh].
Qed.

Lemma main_on_line_normal (line : jsstring) (x : MainJs.exchange) :
  fst (MainJs.on_line line x) = Normal tt.
Proof.
  unfold MainJs.on_line. destruct (startsWith _ line); [|reflexivity].
  apply try_catch_unit_normal. reflexivity.
Qed.

Lemma part_on_line_normal (line : jsstring) (x : Part000.exchange) :
  fst (Part000.on_line line x) = Normal tt.
Proof.
  unfold Part000.on_line. destruct (startsWith _ line); [|reflexivity].
  apply try_catch_unit_normal. reflexivity.
Qed.

(** A line without the prefix is ignored. *)
Lemma main_on_line_ignored (line : jsstring) (x : MainJs.exchange) :
  startsWith (js "data: ") line = false ->
  MainJs.on_line line x = (Normal tt, x).
Proof. intros H. unfold MainJs.on_line. now rewrite H. Qed.

Lemma part_on_line_ignored (line : jsstring) (x : Part000.exchange) :
  startsWith (js "data: ") line = false ->
  Part000.on_line line x = (Normal tt, x).
Proof. intros H. unfold Part000.on_line. now rewrite H. Qed.

(** A frame whose payload parses is dispatched on the parsed value. *)
Lemma main_on_line_parsed (line : jsstring) (data : value)
      (x : MainJs.exchange) :
  startsWith (js "data: ") line = true ->
  JSON_parse (slice 6 line) = Some data ->
  MainJs.on_line line x = (Normal tt, MainJs.dispatch data x).
Proof.
  intros Hp Hj. pose proof (main_on_line_normal line x) as Hn.
  unfold MainJs.on_line in *. rewrite Hp in *.
  unfold MainJs.dispatch, try_catch, bind, lift in *. rewrite Hj in *.
  unfold ret at 1. unfold ret at 1 in Hn.
  destruct (MainJs.handle_data data x) as [[[]|e] x']; simpl in *.
  - reflexivity.
  - reflexivity.
Qed.

Lemma part_on_line_parsed (line : jsstring) (data : value)
      (x : Part000.exchange) :
  startsWith (js "data: ") line = true ->
  JSON_parse (slice 6 line) = Some data ->
  Part000.on_line line x = (Normal tt, Part000.dispatch data x).
Proof.
  intros Hp Hj.
  unfold Part000.on_line. rewrite Hp.
  unfold Part000.dispatch, try_catch, bind, lift. rewrite Hj.
  unfold ret at 1.
  destruct (Part000.handle_data data x) as [[[]|e] x']; reflexivity.
Qed.

(** A frame whose payload does not parse is logged and dropped. *)
Lemma main_on_line_malformed (line : jsstring) (x : MainJs.exchange) :
  startsWith (js "data: ") line = true ->
  JSON_parse (slice 6 line) = None ->
  MainJs.on_line line x
  = (Normal tt, snd (MainJs.console_error SyntaxError x)).
Proof.
  intros Hp Hj. unfold MainJs.on_line. rewrite Hp.
  unfold try_catch, bind, lift. rewrite Hj. reflexivity.
Qed.

Lemma part_on_line_malformed (line : jsstring) (x : Part000.exchange) :
  startsWith (js "data: ") line = true ->
  JSON_parse (slice 6 line) = None ->
  Part000.on_line line x
  = (Normal tt, snd (Part000.console_error SyntaxError x)).
Proof.
  intros Hp Hj. unfold Part000.on_line. rewrite Hp.
  unfold try_catch, bind, lift. rewrite Hj. reflexivity.
Qed.

(** A chunk never makes the read loop complete abruptly. *)
Lemma main_on_chunk (chunk : jsstring) (x : MainJs.exchange) :
  MainJs.on_chunk chunk x = (Normal tt, MainJs.line_run (split LF chunk) x).
Proof.
  unfold MainJs.on_chunk, MainJs.line_run.
  apply for_of_fold. intros; apply main_on_line_normal.
Qed.

Lemma part_on_chunk (chunk : jsstring) (x : Part000.exchange) :
  Part000.on_chunk chunk x
  = (Normal tt,
     let x' := Part000.line_run (split LF chunk) x in
     Part000.set_scrolls (S (Part000.scrolls x')) x').
Proof.
  unfold Part000.on_chunk, Part000.line_run, bind.
  rewrite for_of_fold by (intros; apply part_on_line_normal).
  reflexivity.
Qed.

Lemma main_line_run_state (lines : list jsstring) (x : MainJs.exchange) :
  MainJs.state (MainJs.line_run lines x) = MainJs.state x.
Proof.
  revert x. induction lines as [|l ls IH]; intros x; [reflexivity|].
  unfold MainJs.line_run in *. simpl. rewrite IH. clear IH.
  unfold MainJs.on_line. destruct (startsWith _ l); [|reflexivity].
  unfold try_catch, bind, lift.
  destruct (JSON_parse _) as [data|]; [|reflexivity].
  unfold ret at 1. unfold MainJs.handle_data, bind, lift.
  destruct (get_prop _ data) as [r|]; [|reflexivity].
  unfold ret at 1. destruct (truthy r); reflexivity.
Qed.

Lemma main_resume_chunk (chunk : jsstring) (x : MainJs.exchange) :
  MainJs.state x = Reading ->
  MainJs.resume (ReadChunk chunk) x = MainJs.line_run (split LF chunk) x.
Proof.
  intros H. unfold MainJs.resume. rewrite H.
  unfold MainJs.iteration, bind. now rewrite main_on_chunk.
Qed.

Lemma main_run_chunks_lines (chunks : list jsstring) (x : MainJs.exchange) :
  MainJs.state x = Reading ->
  MainJs.run_chunks chunks x = MainJs.line_run (decoded_lines chunks) x.
Proof.
  revert x. induction chunks as [|c cs IH]; intros x H; [reflexivity|].
  change (MainJs.run_chunks (c :: cs) x)
    with (MainJs.run_chunks cs (MainJs.resume (ReadChunk c) x)).
  rewrite main_resume_chunk by assumption.
  rewrite IH by (now rewrite main_line_run_state).
  unfold decoded_lines. simpl. unfold MainJs.line_run.
  now rewrite fold_left_app.
Qed.

(** ** The typed variant: what a payload does *)

Ltac unfold_part :=
  unfold Part000.dispatch, Part000.handle_data, Part000.on_chain,
    Part000.on_final, Part000.classify, Part000.store, Part000.role_label,
    Part000.console_error, try_catch, bind, lift, ret, throw, modify.

(** The payload handler neither reads nor writes the scroll counter. *)
Lemma part_dispatch_scrolls (data : value) (n : nat) (x : Part000.exchange) :
  Part000.dispatch data (Part000.set_scrolls n x)
  = Part000.set_scrolls n (Part000.dispatch data x).
Proof.
  destruct x. unfold_part. cbn -[js].
  repeat (break_inner; cbn -[js]; try reflexivity).
Qed.

Lemma part_dispatch_state (data : value) (x : Part000.exchange) :
  Part000.state (Part000.dispatch data x) = Part000.state x.
Proof.
  destruct x. unfold_part. cbn -[js].
  repeat (break_inner; cbn -[js]; try reflexivity).
Qed.

Lemma part_on_line_cases (line : jsstring) (x : Part000.exchange) :
  snd (Part000.on_line line x) = x
  \/ snd (Part000.on_line line x) = snd (Part000.console_error SyntaxError x)
  \/ exists data, snd (Part000.on_line line x) = Part000.dispatch data x.
Proof.
  destruct (startsWith (js "data: ") line) eqn:Hp.
  - destruct (JSON_parse (slice 6 line)) as [data|] eqn:Hj.
    + right; right. exists data. now rewrite (part_on_line_parsed _ _ _ Hp Hj).
    + right; left. now rewrite (part_on_line_malformed _ _ Hp Hj).
  - left. now rewrite (part_on_line_ignored _ _ Hp).
Qed.

Lemma part_on_line_scrolls (line : jsstring) (n : nat)
      (x : Part000.exchange) :
  snd (Part000.on_line line (Part000.set_scrolls n x))
  = Part000.set_scrolls n (snd (Part000.on_line line x)).
Proof.
  destruct (startsWith (js "data: ") line) eqn:Hp.
  - destruct (JSON_parse (slice 6 line)) as [data|] eqn:Hj.
    + rewrite !(part_on_line_parsed _ _ _ Hp Hj). apply part_dispatch_scrolls.
    + rewrite !(part_on_line_malformed _ _ Hp Hj). reflexivity.
  - now rewrite !(part_on_line_ignored _ _ Hp).
Qed.

Lemma part_line_run_scrolls (lines : list jsstring) (n : nat)
      (x : Part000.exchange) :
  Part000.line_run lines (Part000.set_scrolls n x)
  = Part000.set_scrolls n (Part000.line_run lines x).
Proof.
  revert x. induction lines as [|l ls IH]; intros x; [reflexivity|].
  unfold Part000.line_run in *. simpl.
  now rewrite part_on_line_scrolls, IH.
Qed.

Lemma part_on_line_state (line : jsstring) (x : Part000.exchange) :
  Part000.state (snd (Part000.on_line line x)) = Part000.state x.
Proof.
  destruct (part_on_line_cases line x) as [-> | [-> | [data ->]]];
    [reflexivity | reflexivity | apply part_dispatch_state].
Qed.

Lemma part_line_run_state (lines : list jsstring) (x : Part000.exchange) :
  Part000.state (Part000.line_run lines x) = Part000.state x.
Proof.
  revert x. induction lines as [|l ls IH]; intros x; [reflexivity|].
  unfold Part000.line_run in *. simpl.
  now rewrite IH, part_on_line_state.
Qed.

(** The scroll counter after [lines] is the one before. *)
Lemma part_line_run_scrolls_same (lines : list jsstring)
      (x : Part000.exchange) :
  Part000.scrolls (Part000.line_run lines x) = Part000.scrolls x.
Proof.
  replace x with (Part000.set_scrolls (Part000.scrolls x) x) at 1
    by (now destruct x).
  rewrite part_line_run_scrolls. reflexivity.
Qed.

Lemma part_resume_chunk (chunk : jsstring) (x : Part000.exchange) :
  Part000.state x = Reading ->
  Part000.resume (ReadChunk chunk) x
  = Part000.set_scrolls (S (Part000.scrolls x))
      (Part000.line_run (split LF chunk) x).
Proof.
  intros H. unfold Part000.resume. rewrite H.
  unfold Part000.iteration, bind. rewrite part_on_chunk. cbv zeta.
  now rewrite part_line_run_scrolls_same.
Qed.

Lemma part_run_chunks_lines (chunks : list jsstring) (x : Part000.exchange) :
  Part000.state x = Reading ->
  Part000.run_chunks chunks x
  = Part000.set_scrolls (Part000.scrolls x + length chunks)
      (Part000.line_run (decoded_lines chunks) x).
Proof.
  revert x. induction chunks as [|c cs IH]; intros x H.
  - simpl. rewrite Nat.add_0_r. now destruct x.
  - change (Part000.run_chunks (c :: cs) x)
      with (Part000.run_chunks cs (Part000.resume (ReadChunk c) x)).
    rewrite part_resume_chunk by assumption.
    rewrite IH by (simpl; now rewrite part_line_run_state).
    rewrite part_line_run_scrolls.
    unfold decoded_lines. simpl. unfold Part000.line_run.
    rewrite fold_left_app.
    set (y := fold_left _ (concat _) _).
    destruct y; unfold Part000.set_scrolls; simpl. f_equal. lia.
Qed.

Lemma main_line_run_app (l1 l2 : list jsstring) (x : MainJs.exchange) :
  MainJs.line_run (l1 ++ l2) x = MainJs.line_run l2 (MainJs.line_run l1 x).
Proof. unfold MainJs.line_run. apply fold_left_app. Qed.

Lemma part_line_run_app (l1 l2 : list jsstring) (x : Part000.exchange) :
  Part000.line_run (l1 ++ l2) x
  = Part000.line_run l2 (Part000.line_run l1 x).
Proof. unfold Part000.line_run. apply fold_left_app. Qed.


(** ** Chunks that end on a line feed *)

Lemma split_app_sep (sep : code_unit) (a b : jsstring) :
  split sep (a ++ sep :: b) = split sep a ++ split sep b.
Proof.
  induction a as [|c a IH]; simpl.
  - now rewrite N.eqb_refl.
  - destruct (N.eqb c sep); [now rewrite IH|].
    rewrite IH. pose proof (split_not_nil sep a) as Hnil.
    destruct (split sep a) as [|l ls]; [contradiction|reflexivity].
Qed.

(** The chunks obtained by closing each of [bodies] with a line feed. *)
Lemma split_concat_aligned (bodies : list jsstring) :
  split LF (concat (map (fun b => b ++ [LF]) bodies))
  = concat (map (split LF) bodies) ++ [[]].
Proof.
  induction bodies as [|b bs IH]; [reflexivity|].
  cbn [map concat]. rewrite <- app_assoc. cbn [app].
  rewrite split_app_sep, IH. now rewrite app_assoc.
Qed.

Lemma decoded_lines_aligned (bodies : list jsstring) :
  decoded_lines (map (fun b => b ++ [LF]) bodies)
  = concat (map (fun b => split LF b ++ [[]]) bodies).
Proof.
  unfold decoded_lines. rewrite map_map. f_equal.
  apply map_ext. intros b.
  change (b ++ [LF]) with (b ++ LF :: []). now rewrite split_app_sep.
Qed.

Lemma main_line_run_aligned (bodies : list jsstring) (x : MainJs.exchange) :
  MainJs.line_run (concat (map (fun b => split LF b ++ [[]]) bodies)) x
  = MainJs.line_run (concat (map (split LF) bodies)) x.
Proof.
  revert x. induction bodies as [|b bs IH]; intros x; [reflexivity|].
  cbn [map concat]. rewrite !main_line_run_app, IH. reflexivity.
Qed.

Lemma part_line_run_aligned (bodies : list jsstring) (y : Part000.exchange) :
  Part000.line_run (concat (map (fun b => split LF b ++ [[]]) bodies)) y
  = Part000.line_run (concat (map (split LF) bodies)) y.
Proof.
  revert y. induction bodies as [|b bs IH]; intros y; [reflexivity|].
  cbn [map concat]. rewrite !part_line_run_app, IH. reflexivity.
Qed.

Lemma main_run_chunks_aligned (bodies : list jsstring) (x : MainJs.exchange) :
  MainJs.state x = Reading ->
  MainJs.run_chunks (map (fun b => b ++ [LF]) bodies) x
  = MainJs.run_chunks [concat (map (fun b => b ++ [LF]) bodies)] x.
Proof.
  intros H. rewrite !main_run_chunks_lines by assumption.
  rewrite decoded_lines_aligned, main_line_run_aligned.
  unfold decoded_lines. cbn [map concat]. rewrite app_nil_r.
  rewrite split_concat_aligned, main_line_run_app. reflexivity.
Qed.

Lemma part_run_chunks_aligned (bodies : list jsstring)
      (y : Part000.exchange) :
  Part000.state y = Reading ->
  Part000.line_run (decoded_lines (map (fun b => b ++ [LF]) bodies)) y
  = Part000.line_run
      (decoded_lines [concat (map (fun b => b ++ [LF]) bodies)]) y.
Proof.
  intros H.
  rewrite decoded_lines_aligned, part_line_run_aligned.
  unfold decoded_lines. cbn [map concat]. rewrite app_nil_r.
  rewrite split_concat_aligned, part_line_run_app. reflexivity.
Qed.

(* ================================================================== *)
(** * C1: chunks are split one by one *)
(* ================================================================== *)

(** C1, as stated, fails: a frame cut by a chunk boundary is not put
    together again.  The two pieces are handed to the decoder as two lines;
    the first does not parse and the second has no prefix, so the final
    answer (or the token) is lost, while the same text in one chunk is
    decoded. *)
Lemma C1_split_frame_not_reassembled :
  ~ Spec.reassembled_before_decoding split_frame
  /\ decoded_lines split_frame
     = [jq "data: {'typ"; jq "e':'final','content':'Done.'}"; []]
  /\ Spec.reassemble [] split_frame
     = [jq "data: {'type':'final','content':'Done.'}"]
  /\ Part000.finalContainer (Part000.run_chunks split_frame Part000.fresh)
     = Empty
  /\ Part000.finalContainer
       (Part000.run_chunks [concat split_frame] Part000.fresh)
     = Rendered (js "Done.")
  /\ MainJs.fullMessage (MainJs.run_chunks split_token (MainJs.fresh true))
     = []
  /\ MainJs.fullMessage
       (MainJs.run_chunks [concat split_token] (MainJs.fresh true))
     = js "Hello".
Proof.
  repeat split; try (vm_compute; reflexivity).
  unfold Spec.reassembled_before_decoding. vm_compute. discriminate.
Qed.

(** C1, amended: each chunk is split on the line feed on its own, and no
    pending fragment is carried from one chunk to the next.  Joining the
    lines of each chunk with line feeds gives back the text of the stream,
    and a fresh exchange that reads [chunks] ends in the state the line
    handler produces when applied, in order, to the lines of the first chunk,
    then those of the second, and so on (in part_000 with one scroll per
    chunk added).  The outcome is that of the unchunked text when every
    chunk ends on a line feed. *)
Theorem C1_chunks_split_separately (chunks bodies : list jsstring) :
  concat (map (fun c => join LF (split LF c)) chunks) = concat chunks
  /\ decoded_lines chunks = concat (map (split LF) chunks)
  /\ (forall at_bottom,
        MainJs.run_chunks chunks (MainJs.fresh at_bottom)
        = MainJs.line_run (decoded_lines chunks) (MainJs.fresh at_bottom))
  /\ Part000.run_chunks chunks Part000.fresh
     = Part000.set_scrolls (length chunks)
         (Part000.line_run (decoded_lines chunks) Part000.fresh)
  /\ (let aligned := map (fun b => b ++ [LF]) bodies in
      (forall at_bottom,
          MainJs.run_chunks aligned (MainJs.fresh at_bottom)
          = MainJs.run_chunks [concat aligned] (MainJs.fresh at_bottom))
      /\ Part000.run_chunks aligned Part000.fresh
         = Part000.set_scrolls (length aligned)
             (Part000.run_chunks [concat aligned] Part000.fresh)).
Proof.
  split; [apply concat_join_split|].
  split; [reflexivity|].
  split; [intros b; now apply main_run_chunks_lines|].
  split; [now rewrite part_run_chunks_lines|].
  cbv zeta. split.
  - intros b. now apply main_run_chunks_aligned.
  - rewrite !part_run_chunks_lines by reflexivity.
    rewrite part_run_chunks_aligned by reflexivity.
    now destruct (Part000.line_run _ _).
Qed.

(* ================================================================== *)
(** * C2: a frame that does not parse *)
(* ================================================================== *)

(** C2: a line with the prefix whose payload [JSON.parse] rejects makes the
    line handler complete normally (the exception is caught in the handler),
    the only trace being the console diagnostic; the accumulated text, the
    displayed content, the stored chain segments and the phase are those of
    before, and the lines that follow are processed from that state.  This
    holds in both clients, from every state. *)
Theorem C2_malformed_frame_is_skipped (line : jsstring) :
  startsWith (js "data: ") line = true ->
  JSON_parse (slice 6 line) = None ->
  (forall x : MainJs.exchange,
      let x' := snd (MainJs.on_line line x) in
      fst (MainJs.on_line line x) = Normal tt
      /\ x' = snd (MainJs.console_error SyntaxError x)
      /\ MainJs.fullMessage x' = MainJs.fullMessage x
      /\ MainJs.assistantMessageEl x' = MainJs.assistantMessageEl x
      /\ MainJs.phase_of x' = MainJs.phase_of x
      /\ forall before after,
          MainJs.line_run (before ++ line :: after) x
          = MainJs.line_run after
              (snd (MainJs.console_error SyntaxError
                      (MainJs.line_run before x))))
  /\ (forall y : Part000.exchange,
      let y' := snd (Part000.on_line line y) in
      fst (Part000.on_line line y) = Normal tt
      /\ y' = snd (Part000.console_error SyntaxError y)
      /\ Part000.chainContainer y' = Part000.chainContainer y
      /\ Part000.criticResponses y' = Part000.criticResponses y
      /\ Part000.responderResponses y' = Part000.responderResponses y
      /\ Part000.finalAnswer y' = Part000.finalAnswer y
      /\ Part000.finalContainer y' = Part000.finalContainer y
      /\ Part000.phase_of y' = Part000.phase_of y
      /\ forall before after,
          Part000.line_run (before ++ line :: after) y
          = Part000.line_run after
              (snd (Part000.console_error SyntaxError
                      (Part000.line_run before y)))).
Proof.
  intros Hp Hj. split.
  - intros x x'. subst x'.
    rewrite (main_on_line_malformed line x Hp Hj). simpl.
    repeat split.
    intros before after. rewrite main_line_run_app.
    unfold MainJs.line_run at 1. simpl.
    now rewrite (main_on_line_malformed line _ Hp Hj).
  - intros y y'. subst y'.
    rewrite (part_on_line_malformed line y Hp Hj). simpl.
    repeat split.
    intros before after. rewrite part_line_run_app.
    unfold Part000.line_run at 1. simpl.
    now rewrite (part_on_line_malformed line _ Hp Hj).
Qed.

(** The theorem at the truncated frame of the split scenario. *)
Lemma C2_malformed_frame_witness :
  startsWith (js "data: ") (jq "data: {'typ") = true
  /\ JSON_parse (slice 6 (jq "data: {'typ")) = None
  /\ snd (Part000.on_line (jq "data: {'typ") Part000.fresh)
     = snd (Part000.console_error SyntaxError Part000.fresh).
Proof.
  split; [reflexivity|]. split; [reflexivity|].
  apply (C2_malformed_frame_is_skipped (jq "data: {'typ")
           eq_refl eq_refl).
Defined.

(* ================================================================== *)
(** * What each kind of payload does *)
(* ================================================================== *)

Lemma node_eqb_refl (n : Part000.node) : Part000.node_eqb n n = true.
Proof.
  destruct n; simpl; unfold JsString.eqb;
    destruct (list_eq_dec N.eq_dec _ _); congruence.
Qed.

Lemma eqb_eq (a b : jsstring) : JsString.eqb a b = true <-> a = b.
Proof.
  unfold JsString.eqb. destruct (list_eq_dec N.eq_dec a b); split;
    congruence.
Qed.

Lemma strict_eq_str_true (s : jsstring) : strict_eq_str (VStr s) s = true.
Proof. simpl. now apply eqb_eq. Qed.

(** A chain payload with a string content. *)
Lemma part_dispatch_chain (ms : list (jsstring * value)) (c : jsstring)
      (y : Part000.exchange) :
  lookup (js "type") ms = VStr (js "chain") ->
  lookup (js "content") ms = VStr c ->
  Part000.dispatch (VObj ms) y = Part000.after_chain c y.
Proof.
  intros Ht Hc. destruct y.
  unfold Part000.after_chain, Part000.stored, Part000.role_of,
    Part000.label_of.
  unfold_part. cbn -[js includes]. rewrite Ht, Hc.
  rewrite strict_eq_str_true. cbn -[js includes].
  assert (Hcc : JsString.eqb c c = true) by now apply eqb_eq.
  destruct (includes (js "Critic:") c) eqn:E1; cbn -[js includes].
  - now rewrite Hcc.
  - destruct (includes (js "Responder:") c) eqn:E2; cbn -[js includes];
      now rewrite Hcc.
Qed.

(** A final payload with a string content. *)
Lemma part_dispatch_final (ms : list (jsstring * value)) (c : jsstring)
      (y : Part000.exchange) :
  lookup (js "type") ms = VStr (js "final") ->
  lookup (js "content") ms = VStr c ->
  Part000.dispatch (VObj ms) y = Part000.after_final c y.
Proof.
  intros Ht Hc. destruct y. unfold Part000.after_final.
  unfold_part. cbn -[js]. rewrite Ht, Hc.
  replace (strict_eq_str (VStr (js "final")) (js "chain")) with false
    by reflexivity.
  rewrite strict_eq_str_true. reflexivity.
Qed.

(** A payload whose type is neither chain nor final is ignored. *)
Lemma part_dispatch_other (ms : list (jsstring * value))
      (y : Part000.exchange) :
  strict_eq_str (lookup (js "type") ms) (js "chain") = false ->
  strict_eq_str (lookup (js "type") ms) (js "final") = false ->
  Part000.dispatch (VObj ms) y = y.
Proof.
  intros H1 H2. unfold_part. cbn -[js]. now rewrite H1, H2.
Qed.

(** A payload with a non-empty string for response. *)
Lemma main_dispatch_token (ms : list (jsstring * value)) (r : jsstring)
      (x : MainJs.exchange) :
  lookup (js "response") ms = VStr r ->
  r <> [] ->
  MainJs.dispatch (VObj ms) x = MainJs.after_token r x.
Proof.
  intros Hr Hne. unfold MainJs.dispatch, MainJs.handle_data, try_catch, bind,
    lift. cbn -[js]. rewrite Hr. unfold ret at 1.
  destruct r as [|c r]; [contradiction|]. reflexivity.
Qed.

(** A payload whose response is absent or falsy is ignored. *)
Lemma main_dispatch_falsy (ms : list (jsstring * value))
      (x : MainJs.exchange) :
  truthy (lookup (js "response") ms) = false ->
  MainJs.dispatch (VObj ms) x = x.
Proof.
  intros Hr. unfold MainJs.dispatch, MainJs.handle_data, try_catch, bind,
    lift. cbn -[js]. unfold ret at 1. now rewrite Hr.
Qed.

(* ================================================================== *)
(** * C3: the two payload shapes *)
(* ================================================================== *)

(** C3, as stated, fails: neither client decodes both shapes.  The client of
    main.js leaves a chain frame and a final frame without any effect, and
    the client of part_000 leaves a token frame without any effect. *)
Lemma C3_no_client_accepts_both :
  snd (MainJs.on_line
         (jq "data: {'type':'chain','content':'Critic: too vague'}")
         (MainJs.fresh true))
  = MainJs.fresh true
  /\ snd (MainJs.on_line (jq "data: {'type':'final','content':'Done.'}")
            (MainJs.fresh true))
     = MainJs.fresh true
  /\ snd (Part000.on_line (jq "data: {'response':'Hello'}") Part000.fresh)
     = Part000.fresh.
Proof. repeat split; vm_compute; reflexivity. Qed.

(** C3, amended: each client decodes one of the two shapes.  For a frame
    whose payload parses to an object: the client of part_000 decodes
    [{ type: "chain", content }] and [{ type: "final", content }] (string
    content) as chain and final events and ignores a payload without a type;
    the client of main.js decodes [{ response }] (non-empty string) as a
    token event and ignores a payload without a response. *)
Theorem C3_one_variant_per_client (line : jsstring)
        (ms : list (jsstring * value)) :
  startsWith (js "data: ") line = true ->
  JSON_parse (slice 6 line) = Some (VObj ms) ->
  (forall c y,
      lookup (js "type") ms = VStr (js "chain") ->
      lookup (js "content") ms = VStr c ->
      Part000.on_line line y = (Normal tt, Part000.after_chain c y))
  /\ (forall c y,
      lookup (js "type") ms = VStr (js "final") ->
      lookup (js "content") ms = VStr c ->
      Part000.on_line line y = (Normal tt, Part000.after_final c y))
  /\ (forall y,
      lookup (js "type") ms = VUndefined ->
      Part000.on_line line y = (Normal tt, y))
  /\ (forall r x,
      lookup (js "response") ms = VStr r ->
      r <> [] ->
      MainJs.on_line line x = (Normal tt, MainJs.after_token r x))
  /\ (forall x,
      lookup (js "response") ms = VUndefined ->
      MainJs.on_line line x = (Normal tt, x)).
Proof.
  intros Hp Hj. repeat split.
  - intros c y Ht Hc. rewrite (part_on_line_parsed line _ y Hp Hj).
    now rewrite (part_dispatch_chain ms c y Ht Hc).
  - intros c y Ht Hc. rewrite (part_on_line_parsed line _ y Hp Hj).
    now rewrite (part_dispatch_final ms c y Ht Hc).
  - intros y Ht. rewrite (part_on_line_parsed line _ y Hp Hj).
    rewrite part_dispatch_other; [reflexivity| |]; now rewrite Ht.
  - intros r x Hr Hne. rewrite (main_on_line_parsed line _ x Hp Hj).
    now rewrite (main_dispatch_token ms r x Hr Hne).
  - intros x Hr. rewrite (main_on_line_parsed line _ x Hp Hj).
    rewrite main_dispatch_falsy; [reflexivity|]. now rewrite Hr.
Qed.

(** The theorem at the chain frame of the first scenario of section 8. *)
Lemma C3_one_variant_witness :
  Part000.on_line (jq "data: {'type':'chain','content':'Critic: too vague'}")
                  Part000.fresh
  = (Normal tt, Part000.after_chain (js "Critic: too vague") Part000.fresh).
Proof.
  refine (proj1 (C3_one_variant_per_client
                   (jq "data: {'type':'chain','content':'Critic: too vague'}")
                   [(js "type", VStr (js "chain"));
                    (js "content", VStr (js "Critic: too vague"))]
                   eq_refl eq_refl)
                _ _ eq_refl eq_refl).
Defined.

(* ================================================================== *)
(** * C4: the role of a chain segment *)
(* ================================================================== *)

Lemma indexOf_none_includes (p s : jsstring) :
  indexOf p s = None <-> includes p s = false.
Proof.
  induction s as [|c s IH]; simpl.
  - destruct (startsWith p []); simpl; split; congruence.
  - destruct (startsWith p (c :: s)); simpl; [split; congruence|].
    rewrite <- IH. destruct (indexOf p s); simpl; split; congruence.
Qed.

Lemma indexOf_some_includes (p s : jsstring) (i : nat) :
  indexOf p s = Some i -> includes p s = true.
Proof.
  intros H. destruct (includes p s) eqn:E; [reflexivity|].
  apply indexOf_none_includes in E. congruence.
Qed.

Lemma part_classify_string (c : jsstring) (x : Part000.exchange) :
  Part000.classify (VStr c) x = (Normal (Part000.role_of c), x).
Proof.
  unfold Part000.classify, Part000.role_of, bind, lift. cbn -[js includes].
  unfold ret at 1.
  destruct (includes (js "Critic:") c); [reflexivity|].
  unfold ret at 1.
  destruct (includes (js "Responder:") c); reflexivity.
Qed.

(** C4, as stated, fails: in a content that holds both markers with the
    Responder marker first, the earliest marker is the Responder one, yet the
    segment is classified, stored and labelled as the critic's. *)
Lemma C4_critic_marker_has_priority :
  indexOf (js "Responder:") (js "Responder: fine. Critic: no") = Some 0
  /\ indexOf (js "Critic:") (js "Responder: fine. Critic: no") = Some 17
  /\ Spec.earliest_role (js "Responder: fine. Critic: no")
     = Part000.responder
  /\ Part000.classify (VStr (js "Responder: fine. Critic: no")) Part000.fresh
     = (Normal Part000.critic, Part000.fresh)
  /\ Part000.criticResponses
       (Part000.dispatch
          (Part000.typed_event (js "chain")
                               (js "Responder: fine. Critic: no"))
          Part000.fresh)
     = [VStr (js "Responder: fine. Critic: no")]
  /\ Part000.responderResponses
       (Part000.dispatch
          (Part000.typed_event (js "chain")
                               (js "Responder: fine. Critic: no"))
          Part000.fresh)
     = []
  /\ hd_error
       (Part000.chainContainer
          (Part000.dispatch
             (Part000.typed_event (js "chain")
                                  (js "Responder: fine. Critic: no"))
             Part000.fresh))
     = Some (Part000.RoleSpan (js "Critic")).
Proof. repeat split; vm_compute; reflexivity. Qed.

Lemma indexOf_startsWith (p s : jsstring) (i : nat) :
  indexOf p s = Some i -> startsWith p (skipn i s) = true.
Proof.
  revert i. induction s as [|c s IH]; intros i; simpl.
  - destruct (startsWith p []) eqn:E; [|discriminate].
    intros [= <-]. exact E.
  - destruct (startsWith p (c :: s)) eqn:E.
    + intros [= <-]. exact E.
    + destruct (indexOf p s) as [k|]; [|discriminate].
      intros [= <-]. simpl. now apply IH.
Qed.

Lemma startsWith_head (a b : code_unit) (p s : jsstring) :
  startsWith (a :: p) (b :: s) = true -> a = b.
Proof.
  simpl. intros H. apply andb_prop in H. now apply N.eqb_eq.
Qed.

(** The two markers cannot begin at the same place. *)
Lemma markers_apart (c : jsstring) (i j : nat) :
  indexOf (js "Critic:") c = Some i ->
  indexOf (js "Responder:") c = Some j ->
  i <> j.
Proof.
  intros Hi Hj ->. apply indexOf_startsWith in Hi, Hj.
  destruct (skipn j c) as [|a t]; [discriminate|].
  change (js "Critic:") with (67%N :: js "ritic:") in Hi.
  change (js "Responder:") with (82%N :: js "esponder:") in Hj.
  apply startsWith_head in Hi, Hj. congruence.
Qed.

(** The fixed order gives the role of the earliest marker, except when both
    markers occur and the Responder one comes first. *)
Lemma role_of_vs_earliest (c : jsstring) :
  Part000.role_of c <> Spec.earliest_role c ->
  exists i j, indexOf (js "Critic:") c = Some i
              /\ indexOf (js "Responder:") c = Some j /\ j < i.
Proof.
  unfold Part000.role_of, Spec.earliest_role.
  destruct (indexOf (js "Critic:") c) as [i|] eqn:I1;
    destruct (indexOf (js "Responder:") c) as [j|] eqn:I2.
  - rewrite (indexOf_some_includes _ _ _ I1).
    destruct (Nat.ltb_spec i j) as [Hlt|Hge]; [congruence|].
    intros _. exists i, j. repeat split.
    pose proof (markers_apart _ _ _ I1 I2). lia.
  - rewrite (indexOf_some_includes _ _ _ I1). congruence.
  - rewrite (proj1 (indexOf_none_includes _ _) I1).
    rewrite (indexOf_some_includes _ _ _ I2). congruence.
  - rewrite (proj1 (indexOf_none_includes _ _) I1).
    rewrite (proj1 (indexOf_none_includes _ _) I2). congruence.
Qed.

Lemma role_of_cases (c : jsstring) :
  (Part000.role_of c = Part000.critic
   <-> includes (js "Critic:") c = true)
  /\ (Part000.role_of c = Part000.responder
      <-> includes (js "Critic:") c = false
          /\ includes (js "Responder:") c = true)
  /\ (Part000.role_of c = Part000.unknown
      <-> includes (js "Critic:") c = false
          /\ includes (js "Responder:") c = false).
Proof.
  unfold Part000.role_of.
  destruct (includes (js "Critic:") c);
    destruct (includes (js "Responder:") c);
    repeat split; try congruence; intros [? ?]; congruence.
Qed.

Lemma label_of_role (c : jsstring) :
  (Part000.role_of c = Part000.critic -> Part000.label_of c = js "Critic")
  /\ (Part000.role_of c = Part000.responder ->
      Part000.label_of c = js "Responder").
Proof.
  unfold Part000.role_of, Part000.label_of.
  destruct (includes (js "Critic:") c);
    destruct (includes (js "Responder:") c); split; congruence.
Qed.

Lemma after_chain_fields (c : jsstring) (y : Part000.exchange) :
  Part000.chainContainer (Part000.after_chain c y)
  = [Part000.RoleSpan (Part000.label_of c); Part000.ChainContent c]
  /\ Part000.criticResponses (Part000.after_chain c y)
     = Part000.criticResponses y
       ++ match Part000.role_of c with
          | Part000.critic => [VStr c]
          | _ => []
          end
  /\ Part000.responderResponses (Part000.after_chain c y)
     = Part000.responderResponses y
       ++ match Part000.role_of c with
          | Part000.responder => [VStr c]
          | _ => []
          end.
Proof.
  unfold Part000.after_chain, Part000.stored.
  destruct (Part000.role_of c); destruct y; simpl;
    rewrite ?app_nil_r; auto.
Qed.

Lemma part_dispatch_typed_chain (c : jsstring) (y : Part000.exchange) :
  Part000.dispatch (Part000.typed_event (js "chain") c) y
  = Part000.after_chain c y.
Proof. now apply part_dispatch_chain. Qed.

Lemma part_dispatch_typed_final (c : jsstring) (y : Part000.exchange) :
  Part000.dispatch (Part000.typed_event (js "final") c) y
  = Part000.after_final c y.
Proof. now apply part_dispatch_final. Qed.

(** C4, amended: the markers are tested in a fixed order, whatever their
    positions.  A content that includes 'Critic:' is the critic's; one that
    does not but includes 'Responder:' is the responder's; one with neither
    is stored under no role (unknown).  This is the role of the earliest
    marker except when both markers occur and 'Responder:' comes first.  With
    a marker present, the label shown is that of the role.  The content is
    neither changed nor cut: the segment is stored and rendered whole. *)
Theorem C4_fixed_order_classification (c : jsstring) (y : Part000.exchange) :
  Part000.classify (VStr c) y = (Normal (Part000.role_of c), y)
  /\ (Part000.role_of c = Part000.critic
      <-> includes (js "Critic:") c = true)
  /\ (Part000.role_of c = Part000.responder
      <-> includes (js "Critic:") c = false
          /\ includes (js "Responder:") c = true)
  /\ (Part000.role_of c = Part000.unknown
      <-> includes (js "Critic:") c = false
          /\ includes (js "Responder:") c = false)
  /\ (Part000.role_of c <> Spec.earliest_role c ->
      exists i j, indexOf (js "Critic:") c = Some i
                  /\ indexOf (js "Responder:") c = Some j /\ j < i)
  /\ (Part000.role_of c = Part000.critic ->
      Part000.label_of c = js "Critic")
  /\ (Part000.role_of c = Part000.responder ->
      Part000.label_of c = js "Responder")
  /\ (let y' := Part000.dispatch (Part000.typed_event (js "chain") c) y in
      In (Part000.ChainContent c) (Part000.chainContainer y')
      /\ Part000.criticResponses y'
         = Part000.criticResponses y
           ++ match Part000.role_of c with
              | Part000.critic => [VStr c]
              | _ => []
              end
      /\ Part000.responderResponses y'
         = Part000.responderResponses y
           ++ match Part000.role_of c with
              | Part000.responder => [VStr c]
              | _ => []
              end).
Proof.
  split; [apply part_classify_string|].
  destruct (role_of_cases c) as (Hc & Hr & Hu).
  destruct (label_of_role c) as (Lc & Lr).
  do 3 (split; [assumption|]).
  split; [apply role_of_vs_earliest|].
  do 2 (split; [assumption|]).
  cbv zeta. rewrite part_dispatch_typed_chain.
  destruct (after_chain_fields c y) as (F1 & F2 & F3).
  rewrite F1. split; [simpl; auto|]. split; assumption.
Qed.

(** The theorem at a content that holds both markers, Responder first: the
    one case where the role is not that of the earliest marker. *)
Lemma C4_fixed_order_witness :
  exists i j,
    indexOf (js "Critic:") (js "Responder: fine. Critic: no") = Some i
    /\ indexOf (js "Responder:") (js "Responder: fine. Critic: no") = Some j
    /\ j < i.
Proof.
  refine (proj1 (proj2 (proj2 (proj2 (proj2
            (C4_fixed_order_classification
               (js "Responder: fine. Critic: no") Part000.fresh))))) _).
  vm_compute. discriminate.
Defined.

(* ================================================================== *)
(** * C5: what the chain panel shows *)
(* ================================================================== *)

Lemma part_apply_events_app (e1 e2 : list value) (y : Part000.exchange) :
  Part000.apply_events (e1 ++ e2) y
  = Part000.apply_events e2 (Part000.apply_events e1 y).
Proof. unfold Part000.apply_events. apply fold_left_app. Qed.

Lemma chain_events_stored (cs : list jsstring) (y : Part000.exchange) :
  Part000.criticResponses (Part000.apply_events (chain_events cs) y)
  = Part000.criticResponses y
    ++ map VStr (filter (includes (js "Critic:")) cs)
  /\ Part000.responderResponses (Part000.apply_events (chain_events cs) y)
     = Part000.responderResponses y
       ++ map VStr (filter (fun c => negb (includes (js "Critic:") c)
                                      && includes (js "Responder:") c) cs).
Proof.
  revert y. induction cs as [|c cs IH]; intros y.
  - simpl. now rewrite !app_nil_r.
  - change (Part000.apply_events (chain_events (c :: cs)) y)
      with (Part000.apply_events (chain_events cs)
              (Part000.dispatch (Part000.typed_event (js "chain") c) y)).
    destruct (IH (Part000.dispatch (Part000.typed_event (js "chain") c) y))
      as [IH1 IH2].
    rewrite IH1, IH2, part_dispatch_typed_chain.
    destruct (after_chain_fields c y) as (_ & F2 & F3). rewrite F2, F3.
    unfold Part000.role_of. cbn [filter].
    destruct (includes (js "Critic:") c);
      destruct (includes (js "Responder:") c); cbn [negb andb map];
      rewrite <- !app_assoc; simpl; auto.
Qed.

(** C5, as stated, fails: after two chain events the panel holds the label
    and the rendering of the second segment only; the first segment is
    gone from the panel. *)
Lemma C5_panel_shows_latest_only :
  Part000.chainContainer
    (Part000.apply_events
       (chain_events [js "Critic: one"; js "Responder: two"]) Part000.fresh)
  = [Part000.RoleSpan (js "Responder");
     Part000.ChainContent (js "Responder: two")]
  /\ ~ In (Part000.ChainContent (js "Critic: one"))
          (Part000.chainContainer
             (Part000.apply_events
                (chain_events [js "Critic: one"; js "Responder: two"])
                Part000.fresh)).
Proof.
  split; [vm_compute; reflexivity|].
  vm_compute. intros [H|[H|[]]]; discriminate.
Qed.

(** C5, amended: on every chain event the panel is emptied and rebuilt from
    the content of that event alone, so after N chain events (N at least 1)
    it shows the role label and the rendering of the latest segment, whatever
    came before.  What accumulates is the pair of per-role lists: the
    segments that hold a marker are appended, in arrival order, to
    criticResponses or responderResponses (which are never displayed). *)
Theorem C5_panel_rebuilt_from_latest (earlier : list jsstring) (c : jsstring)
        (y : Part000.exchange) :
  let y' := Part000.apply_events (chain_events (earlier ++ [c])) y in
  Part000.chainContainer y'
  = [Part000.RoleSpan (Part000.label_of c); Part000.ChainContent c]
  /\ Part000.criticResponses y'
     = Part000.criticResponses y
       ++ map VStr (filter (includes (js "Critic:")) (earlier ++ [c]))
  /\ Part000.responderResponses y'
     = Part000.responderResponses y
       ++ map VStr (filter (fun c => negb (includes (js "Critic:") c)
                                      && includes (js "Responder:") c)
                           (earlier ++ [c])).
Proof.
  cbv zeta. split; [|apply chain_events_stored].
  unfold chain_events. rewrite map_app, part_apply_events_app.
  cbn [map Part000.apply_events fold_left].
  rewrite part_dispatch_typed_chain.
  apply after_chain_fields.
Qed.

(* ================================================================== *)
(** * C6: a transport error *)
(* ================================================================== *)

Lemma main_run_chunks_reading (chunks : list jsstring) (b : bool) :
  MainJs.state (MainJs.run_chunks chunks (MainJs.fresh b)) = Reading.
Proof.
  rewrite main_run_chunks_lines by reflexivity.
  now rewrite main_line_run_state.
Qed.

Lemma part_run_chunks_reading (chunks : list jsstring) :
  Part000.state (Part000.run_chunks chunks Part000.fresh) = Reading.
Proof.
  rewrite part_run_chunks_lines by reflexivity.
  change (Part000.state (Part000.set_scrolls ?n ?y)) with (Part000.state y).
  now rewrite part_line_run_state.
Qed.

Lemma main_resume_error (x : MainJs.exchange) :
  MainJs.state x = Reading ->
  MainJs.resume ReadError x
  = MainJs.mkExchange (MainJs.fullMessage x) (TextContent error_message)
      (MainJs.isAtBottom x) (MainJs.scrollFrames x)
      (MainJs.console x ++ [TransportError]) Failed.
Proof. intros H. unfold MainJs.resume. rewrite H. reflexivity. Qed.

Lemma part_resume_error (y : Part000.exchange) :
  Part000.state y = Reading ->
  Part000.resume ReadError y
  = Part000.mkExchange [Part000.TextNode error_message]
      (Part000.chainDisplay y) (Part000.finalContainer y)
      (Part000.finalDisplay y) (Part000.reasoningToggles y) false
      (Part000.currentChain y) (Part000.finalAnswer y)
      (Part000.criticResponses y) (Part000.responderResponses y)
      (Part000.scrolls y) (Part000.console y ++ [TransportError]) Failed.
Proof. intros H. unfold Part000.resume. rewrite H. reflexivity. Qed.

(** C6, as stated, fails: a read that fails after content has accumulated
    replaces what was displayed by the error message.  In main.js the
    rendered partial answer is overwritten; in part_000 the chain panel is
    overwritten, and once a final answer is shown the panel that receives
    the message is hidden. *)
Lemma C6_error_overwrites_partial_output :
  MainJs.assistantMessageEl
    (MainJs.run_chunks [jq "data: {'response':'Hel'}" ++ [LF]]
                       (MainJs.fresh true))
  = Rendered (js "Hel")
  /\ MainJs.assistantMessageEl
       (MainJs.resume ReadError
          (MainJs.run_chunks [jq "data: {'response':'Hel'}" ++ [LF]]
                             (MainJs.fresh true)))
     = TextContent (js "Error: Failed to send message")
  /\ Part000.chainContainer
       (Part000.resume ReadError
          (Part000.run_chunks
             [jq "data: {'type':'chain','content':'Critic: too vague'}"
                 ++ [LF]]
             Part000.fresh))
     = [Part000.TextNode (js "Error: Failed to send message")]
  /\ Part000.chainDisplay
       (Part000.resume ReadError
          (Part000.run_chunks
             [jq "data: {'type':'final','content':'Done.'}" ++ [LF]]
             Part000.fresh))
     = Part000.DisplayNone.
Proof. repeat split; vm_compute; reflexivity. Qed.

(** C6, amended: when a read fails, the fixed error message replaces the
    displayed content whether or not anything had accumulated, and no
    failure marker is appended: in main.js it becomes the text of the whole
    assistant element; in part_000 it becomes the content of the chain
    panel, while the final-answer container, its visibility and the toggles
    stay as they were and the typing indicator is removed.  The accumulated
    variables (fullMessage; finalAnswer and the per-role lists) keep their
    values.  A request that fails before any read ends the same way. *)
Theorem C6_error_message_replaces_display (chunks : list jsstring)
        (at_bottom : bool) :
  (let x := MainJs.run_chunks chunks (MainJs.fresh at_bottom) in
   let x' := MainJs.resume ReadError x in
   MainJs.state x' = Failed
   /\ MainJs.assistantMessageEl x' = TextContent error_message
   /\ MainJs.fullMessage x' = MainJs.fullMessage x)
  /\ (let y := Part000.run_chunks chunks Part000.fresh in
      let y' := Part000.resume ReadError y in
      Part000.state y' = Failed
      /\ Part000.chainContainer y' = [Part000.TextNode error_message]
      /\ Part000.chainDisplay y' = Part000.chainDisplay y
      /\ Part000.finalContainer y' = Part000.finalContainer y
      /\ Part000.finalDisplay y' = Part000.finalDisplay y
      /\ Part000.reasoningToggles y' = Part000.reasoningToggles y
      /\ Part000.finalAnswer y' = Part000.finalAnswer y
      /\ Part000.criticResponses y' = Part000.criticResponses y
      /\ Part000.responderResponses y' = Part000.responderResponses y
      /\ Part000.indicator y' = false)
  /\ (forall w, responded w = false ->
        MainJs.assistantMessageEl (MainJs.open_exchange w)
        = TextContent error_message
        /\ MainJs.state (MainJs.open_exchange w) = Failed
        /\ Part000.chainContainer (Part000.open_exchange w)
           = [Part000.TextNode error_message]
        /\ Part000.indicator (Part000.open_exchange w) = false
        /\ Part000.state (Part000.open_exchange w) = Failed).
Proof.
  split; [|split].
  - cbv zeta. rewrite main_resume_error by apply main_run_chunks_reading.
    repeat split.
  - cbv zeta. rewrite part_resume_error by apply part_run_chunks_reading.
    repeat split.
  - intros w Hw. unfold MainJs.open_exchange, Part000.open_exchange.
    rewrite Hw. repeat split.
Qed.

(** The theorem at a request that is refused. *)
Lemma C6_error_message_witness :
  MainJs.assistantMessageEl
    (MainJs.open_exchange (mkWorld None true false []))
  = TextContent error_message.
Proof.
  exact (proj1 (proj2 (proj2 (C6_error_message_replaces_display [] true))
                  (mkWorld None true false []) eq_refl)).
Defined.

(* ================================================================== *)
(** * C7: token events *)
(* ================================================================== *)

Lemma main_dispatch_string (ms : list (jsstring * value)) (r : jsstring)
      (x : MainJs.exchange) :
  lookup (js "response") ms = VStr r ->
  MainJs.dispatch (VObj ms) x
  = match r with
    | [] => x
    | _ :: _ => MainJs.after_token r x
    end.
Proof.
  intros Hr. destruct r as [|c r].
  - apply main_dispatch_falsy. now rewrite Hr.
  - now apply main_dispatch_token.
Qed.

Lemma main_tokens_accumulate (mss : list (list (jsstring * value)))
      (rs : list jsstring) :
  Forall2 (fun ms r => lookup (js "response") ms = VStr r) mss rs ->
  forall x,
    MainJs.assistantMessageEl x = shown_for (MainJs.fullMessage x) ->
    let x' := MainJs.apply_events (map VObj mss) x in
    MainJs.fullMessage x' = MainJs.fullMessage x ++ concat rs
    /\ MainJs.assistantMessageEl x' = shown_for (MainJs.fullMessage x')
    /\ MainJs.state x' = MainJs.state x.
Proof.
  induction 1 as [|ms r mss rs Hr _ IH]; intros x Hx; cbv zeta.
  - simpl. now rewrite app_nil_r.
  - change (MainJs.apply_events (map VObj (ms :: mss)) x)
      with (MainJs.apply_events (map VObj mss) (MainJs.dispatch (VObj ms) x)).
    rewrite (main_dispatch_string ms _ x Hr).
    destruct r as [|c r].
    + now apply IH.
    + destruct (IH (MainJs.after_token (c :: r) x)) as (F & D & S).
      * simpl. now destruct (MainJs.fullMessage x).
      * split; [|split; [exact D|now rewrite S]].
        rewrite F. simpl. now rewrite <- app_assoc.
Qed.

(** C7, as stated, fails: a token event whose response is the empty string
    is skipped by the guard [if (data.response)]; as the first event of a
    stream it leaves the exchange idle, showing the typing text. *)
Lemma C7_empty_fragment_is_skipped :
  JSON_parse (slice 6 (jq "data: {'response':''}"))
  = Some (MainJs.token_event [])
  /\ snd (MainJs.on_line (jq "data: {'response':''}") (MainJs.fresh true))
     = MainJs.fresh true
  /\ MainJs.assistantMessageEl
       (MainJs.run_chunks [jq "data: {'response':''}" ++ [LF]]
                          (MainJs.fresh true))
     = TextContent (js "Assistant is typing...")
  /\ MainJs.phase_of
       (MainJs.run_chunks [jq "data: {'response':''}" ++ [LF]]
                          (MainJs.fresh true))
     = idle.
Proof. repeat split; vm_compute; reflexivity. Qed.

(** C7, amended: a token event with a non-empty response string appends its
    fragment to fullMessage and renders the element again from the whole
    text, which puts the exchange in the final-answer phase; a token event
    with an empty response is skipped and changes nothing.  For a stream of
    token events read by a fresh exchange, fullMessage is the concatenation
    of the fragments in arrival order; the element shows the typing text as
    long as that text is empty and the rendering of the whole text from then
    on; no chain phase is ever entered. *)
Theorem C7_tokens_append_in_order (mss : list (list (jsstring * value)))
        (rs : list jsstring) (at_bottom : bool) :
  Forall2 (fun ms r => lookup (js "response") ms = VStr r) mss rs ->
  let x' := MainJs.apply_events (map VObj mss) (MainJs.fresh at_bottom) in
  MainJs.fullMessage x' = concat rs
  /\ MainJs.assistantMessageEl x' = shown_for (concat rs)
  /\ MainJs.phase_of x'
     = match concat rs with
       | [] => idle
       | _ :: _ => streaming_final
       end
  /\ (forall ms r x,
        lookup (js "response") ms = VStr r ->
        MainJs.fullMessage (MainJs.dispatch (VObj ms) x)
        = MainJs.fullMessage x ++ r
        /\ (r <> [] ->
            MainJs.dispatch (VObj ms) x = MainJs.after_token r x
            /\ MainJs.assistantMessageEl (MainJs.dispatch (VObj ms) x)
               = Rendered (MainJs.fullMessage x ++ r))
        /\ (r = [] -> MainJs.dispatch (VObj ms) x = x))
  /\ (forall x, MainJs.phase_of x <> streaming_chain).
Proof.
  intros H. cbv zeta.
  destruct (main_tokens_accumulate _ _ H (MainJs.fresh at_bottom) eq_refl)
    as (F & D & S).
  simpl in F. rewrite F in D.
  split; [exact F|]. split; [exact D|]. split; [|split].
  - unfold MainJs.phase_of. rewrite S, D. simpl.
    now destruct (concat rs).
  - intros ms r x Hr. rewrite (main_dispatch_string ms _ x Hr).
    destruct r as [|c r].
    + rewrite app_nil_r. repeat split; congruence.
    + repeat split; congruence.
  - intros x. unfold MainJs.phase_of.
    destruct (MainJs.state x); [|discriminate|discriminate].
    destruct (MainJs.assistantMessageEl x); discriminate.
Qed.

(** The theorem at the token scenario of section 8, sent in two frames. *)
Lemma C7_tokens_witness :
  MainJs.fullMessage
    (MainJs.apply_events
       (map VObj [[(js "response", VStr (js "Hel"))];
                  [(js "response", VStr (js "lo"))]])
       (MainJs.fresh true))
  = js "Hello".
Proof.
  refine (proj1 (C7_tokens_append_in_order
                   [[(js "response", VStr (js "Hel"))];
                    [(js "response", VStr (js "lo"))]]
                   [js "Hel"; js "lo"] true _)).
  repeat constructor.
Defined.

(* ================================================================== *)
(** * C8: the phase never regresses *)
(* ================================================================== *)

Lemma precedes_refl (p : phase) : precedes p p.
Proof. unfold precedes. lia. Qed.

Lemma precedes_trans (p q r : phase) :
  precedes p q -> precedes q r -> precedes p r.
Proof. unfold precedes. lia. Qed.

Lemma strict_eq_str_eq (v : value) (s : jsstring) :
  strict_eq_str v s = true -> v = VStr s.
Proof.
  destruct v; simpl; try discriminate. intros H.
  apply eqb_eq in H. now subst.
Qed.

(** What a well-formed payload does, by cases. *)
Lemma part_dispatch_well_formed (data : value) (y : Part000.exchange) :
  well_formed data ->
  (exists c, Part000.dispatch data y = Part000.after_chain c y)
  \/ (exists c, Part000.dispatch data y = Part000.after_final c y)
  \/ Part000.dispatch data y = y
  \/ Part000.dispatch data y = snd (Part000.console_error TypeError y).
Proof.
  intros Hwf. destruct data as [| |b|n|s|vs|ms];
    try (right; right; left; reflexivity);
    try (right; right; right; reflexivity).
  simpl in Hwf.
  destruct (strict_eq_str (lookup (js "type") ms) (js "chain")) eqn:E1.
  - destruct Hwf as [c Hc]; [now left|].
    left. exists c. apply part_dispatch_chain; [|assumption].
    now apply strict_eq_str_eq.
  - destruct (strict_eq_str (lookup (js "type") ms) (js "final")) eqn:E2.
    + destruct Hwf as [c Hc]; [now right|].
      right; left. exists c. apply part_dispatch_final; [|assumption].
      now apply strict_eq_str_eq.
    + right; right; left. now apply part_dispatch_other.
Qed.

Lemma part_dispatch_phase (data : value) (y : Part000.exchange) :
  well_formed data ->
  precedes (Part000.phase_of y) (Part000.phase_of (Part000.dispatch data y))
  /\ (Part000.phase_of y = streaming_final ->
      Part000.phase_of (Part000.dispatch data y) = streaming_final).
Proof.
  intros Hwf.
  destruct (part_dispatch_well_formed data y Hwf)
    as [[c ->] | [[c ->] | [-> | ->]]].
  - unfold Part000.after_chain, Part000.stored, Part000.phase_of.
    destruct (Part000.role_of c); destruct y as [cc cd fc fd ? ? ? ? ? ? ? ? st];
      simpl; destruct st, fd, cc; simpl; unfold precedes; simpl;
      (split; [lia|congruence]).
  - unfold Part000.after_final, Part000.phase_of.
    destruct y as [cc cd fc fd ? ? ? ? ? ? ? ? st];
      simpl; destruct st, fd, cc; simpl; unfold precedes; simpl;
      (split; [lia|congruence]).
  - split; [apply precedes_refl|auto].
  - split; [apply precedes_refl|auto].
Qed.

Lemma part_apply_events_phase (events : list value) (y : Part000.exchange) :
  Forall well_formed events ->
  precedes (Part000.phase_of y)
           (Part000.phase_of (Part000.apply_events events y))
  /\ (Part000.phase_of y = streaming_final ->
      Part000.phase_of (Part000.apply_events events y) = streaming_final).
Proof.
  intros H. revert y. induction H as [|data events Hd _ IH]; intros y.
  - split; [apply precedes_refl|auto].
  - change (Part000.apply_events (data :: events) y)
      with (Part000.apply_events events (Part000.dispatch data y)).
    destruct (part_dispatch_phase data y Hd) as [P1 F1].
    destruct (IH (Part000.dispatch data y)) as [P2 F2].
    split; [eapply precedes_trans; eassumption|auto].
Qed.

Lemma part_apply_events_state (events : list value) (y : Part000.exchange) :
  Part000.state (Part000.apply_events events y) = Part000.state y.
Proof.
  revert y. induction events as [|d ds IH]; intros y; [reflexivity|].
  change (Part000.apply_events (d :: ds) y)
    with (Part000.apply_events ds (Part000.dispatch d y)).
  now rewrite IH, part_dispatch_state.
Qed.

Lemma main_dispatch_phase (data : value) (x : MainJs.exchange) :
  precedes (MainJs.phase_of x) (MainJs.phase_of (MainJs.dispatch data x)).
Proof.
  unfold MainJs.dispatch, MainJs.handle_data, try_catch, bind, lift.
  destruct (get_prop (js "response") data) as [r|];
    [|apply precedes_refl].
  unfold ret at 1. destruct (truthy r); [|apply precedes_refl].
  unfold MainJs.phase_of, precedes. destruct x as [? el ? ? ? st]; simpl.
  destruct st; simpl; try lia. destruct el; simpl; lia.
Qed.

Lemma main_apply_events_phase (events : list value) (x : MainJs.exchange) :
  precedes (MainJs.phase_of x)
           (MainJs.phase_of (MainJs.apply_events events x)).
Proof.
  revert x. induction events as [|d ds IH]; intros x;
    [apply precedes_refl|].
  change (MainJs.apply_events (d :: ds) x)
    with (MainJs.apply_events ds (MainJs.dispatch d x)).
  eapply precedes_trans; [apply main_dispatch_phase|apply IH].
Qed.

(** Well-formedness matters: a chain payload without a content parses, but
    its handling empties the panel before the exception is caught, so a
    panel that showed a segment is blank again. *)
Example chain_without_content_blanks_panel :
  let y := Part000.dispatch
             (Part000.typed_event (js "chain") (js "Critic: too vague"))
             Part000.fresh in
  Part000.phase_of y = streaming_chain
  /\ Part000.dispatch (VObj [(js "type", VStr (js "chain"))]) y
     = Part000.set_console [TypeError] (Part000.set_chainContainer [] y)
  /\ Part000.phase_of
       (Part000.dispatch (VObj [(js "type", VStr (js "chain"))]) y)
     = idle.
Proof. vm_compute. repeat split. Qed.

(** C8: along every sequence of well-formed payloads handled by a fresh
    exchange of part_000, the phase only moves forward through idle,
    streaming_chain, streaming_final; once it is streaming_final it stays so
    whatever follows, in particular a chain event after a final event leaves
    it streaming_final; the end of the stream moves it to done and a failed
    read to failed, neither of which is earlier than any phase.  In main.js,
    which has no chain phase, the phase only moves forward as well. *)
Theorem C8_phase_never_regresses (before after : list value) :
  Forall well_formed (before ++ after) ->
  let y1 := Part000.apply_events before Part000.fresh in
  let y2 := Part000.apply_events after y1 in
  precedes (Part000.phase_of y1) (Part000.phase_of y2)
  /\ (Part000.phase_of y1 = streaming_final ->
      Part000.phase_of y2 = streaming_final)
  /\ (forall c c',
        Part000.phase_of
          (Part000.dispatch (Part000.typed_event (js "chain") c')
             (Part000.dispatch (Part000.typed_event (js "final") c) y2))
        = streaming_final)
  /\ Part000.phase_of (Part000.resume ReadDone y2) = done
  /\ Part000.phase_of (Part000.resume ReadError y2) = failed
  /\ precedes (Part000.phase_of y2)
              (Part000.phase_of (Part000.resume ReadDone y2))
  /\ precedes (Part000.phase_of y2)
              (Part000.phase_of (Part000.resume ReadError y2))
  /\ (forall at_bottom,
        precedes
          (MainJs.phase_of
             (MainJs.apply_events before (MainJs.fresh at_bottom)))
          (MainJs.phase_of
             (MainJs.apply_events after
                (MainJs.apply_events before (MainJs.fresh at_bottom))))).
Proof.
  intros H. apply Forall_app in H. destruct H as [_ Ha]. cbv zeta.
  set (y1 := Part000.apply_events before Part000.fresh).
  set (y2 := Part000.apply_events after y1).
  assert (S2 : Part000.state y2 = Reading).
  { unfold y2, y1. now rewrite !part_apply_events_state. }
  destruct (part_apply_events_phase after y1 Ha) as [P F].
  split; [exact P|]. split; [exact F|].
  assert (D : Part000.phase_of (Part000.resume ReadDone y2) = done).
  { unfold Part000.resume. rewrite S2. reflexivity. }
  assert (E : Part000.phase_of (Part000.resume ReadError y2) = failed).
  { unfold Part000.resume. rewrite S2. reflexivity. }
  split.
  - intros c c'. rewrite part_dispatch_typed_final, part_dispatch_typed_chain.
    unfold Part000.after_chain, Part000.stored, Part000.after_final,
      Part000.phase_of.
    destruct (Part000.role_of c'); destruct y2; simpl in *; now rewrite S2.
  - rewrite D, E. repeat split.
    + unfold precedes. destruct (Part000.phase_of y2); simpl; lia.
    + unfold precedes. destruct (Part000.phase_of y2); simpl; lia.
    + intros b. apply main_apply_events_phase.
Qed.

(** The theorem at the first scenario of section 8: a chain event, then the
    final event. *)
Lemma C8_phase_witness :
  precedes
    (Part000.phase_of
       (Part000.apply_events
          [Part000.typed_event (js "chain") (js "Critic: too vague")]
          Part000.fresh))
    (Part000.phase_of
       (Part000.apply_events
          [Part000.typed_event (js "final") (js "Done.")]
          (Part000.apply_events
             [Part000.typed_event (js "chain") (js "Critic: too vague")]
             Part000.fresh))).
Proof.
  refine (proj1 (C8_phase_never_regresses
                   [Part000.typed_event (js "chain") (js "Critic: too vague")]
                   [Part000.typed_event (js "final") (js "Done.")] _)).
  repeat constructor; intros _; eexists; reflexivity.
Defined.

(* ================================================================== *)
(** * C10: an empty message *)
(* ================================================================== *)

(** C10: when the input trims to the empty string, [sendMessage] returns at
    once in both clients, whatever the environment would answer: no
    activation is created and the page is left as it was (no request issued,
    no message element created, currentChatId, lastUserMessage and the input
    unchanged). *)
Theorem C10_empty_message_is_a_no_op (w : world)
        (p : page MainJs.exchange) (q : page Part000.exchange) :
  trim (messageInput p) = [] ->
  trim (messageInput q) = [] ->
  MainJs.start w p = (p, None)
  /\ MainJs.sendMessage w p = p
  /\ Part000.start w q = (q, None)
  /\ Part000.sendMessage w q = q.
Proof.
  intros Hp Hq.
  unfold MainJs.sendMessage, Part000.sendMessage, MainJs.start,
    Part000.start.
  rewrite Hp, Hq. repeat split.
Qed.

(** The theorem at an input of blanks, a tab and a line feed, on a page with
    an open chat and a server ready to answer. *)
Lemma C10_empty_message_witness :
  MainJs.sendMessage
    (mkWorld (Some 7%N) true true [ReadChunk (js "data: x"); ReadDone])
    (mkPage (js "  " ++ [9%N; 10%N]) (js "llama3") (Some 4%N) (js "before")
            [UserMessage (js "before")] [] [])
  = mkPage (js "  " ++ [9%N; 10%N]) (js "llama3") (Some 4%N) (js "before")
           [UserMessage (js "before")] [] [].
Proof.
  refine (proj1 (proj2
    (C10_empty_message_is_a_no_op
       (mkWorld (Some 7%N) true true [ReadChunk (js "data: x"); ReadDone])
       (mkPage (js "  " ++ [9%N; 10%N]) (js "llama3") (Some 4%N)
               (js "before") [UserMessage (js "before")] [] [])
       (mkPage [] [] None [] [] [] [])
       eq_refl eq_refl))).
Defined.

(* ================================================================== *)
(** * C9: several activations on one page *)
(* ================================================================== *)

Lemma nth_error_update_at {X : Type} (f : X -> X) (xs : list X) (i j : nat) :
  nth_error (update_at i f xs) j
  = if Nat.eqb i j then option_map f (nth_error xs j) else nth_error xs j.
Proof.
  revert i j. induction xs as [|x xs IH]; intros i j.
  - destruct i as [|i]; destruct j as [|j]; simpl;
      try reflexivity; now destruct (Nat.eqb i j).
  - destruct i as [|i]; destruct j as [|j]; simpl; try reflexivity.
    apply IH.
Qed.

(** A new activation is appended; the earlier ones are left as they are. *)
Lemma main_start_exchanges (w : world) (p : page MainJs.exchange) :
  exchanges (fst (MainJs.start w p))
  = exchanges p
    ++ match snd (MainJs.start w p) with
       | Some _ => [MainJs.open_exchange w]
       | None => []
       end
  /\ (forall id, snd (MainJs.start w p) = Some id ->
                 id = length (exchanges p)).
Proof.
  unfold MainJs.start.
  destruct (trim (messageInput p)) as [|c m]; simpl.
  - split; [now rewrite app_nil_r|discriminate].
  - destruct (falsy_id (currentChatId p)); simpl.
    + unfold createNewChat. destruct (created w) as [n|]; simpl.
      * destruct (n =? 0)%N; simpl;
          (split; [now rewrite ?app_nil_r|congruence]).
      * split; [now rewrite app_nil_r|discriminate].
    + split; [reflexivity|congruence].
Qed.

Lemma part_start_exchanges (w : world) (p : page Part000.exchange) :
  exchanges (fst (Part000.start w p))
  = exchanges p
    ++ match snd (Part000.start w p) with
       | Some _ => [Part000.open_exchange w]
       | None => []
       end
  /\ (forall id, snd (Part000.start w p) = Some id ->
                 id = length (exchanges p)).
Proof.
  unfold Part000.start.
  destruct (trim (messageInput p)) as [|c m]; simpl.
  - split; [now rewrite app_nil_r|discriminate].
  - destruct (falsy_id (currentChatId p)); simpl.
    + unfold createNewChat. destruct (created w) as [n|]; simpl.
      * destruct (n =? 0)%N; simpl;
          (split; [now rewrite ?app_nil_r|congruence]).
      * split; [now rewrite app_nil_r|discriminate].
    + split; [reflexivity|congruence].
Qed.

(** C9, as stated, fails: after a second message has been sent, the first
    activation is still reading with its indicator in place, and a chunk
    read by it afterwards still changes its element on the page. *)
Lemma C9_prior_exchange_not_cancelled :
  chatMessages two_sends
  = [UserMessage (js "first"); AssistantMessage 0;
     UserMessage (js "second"); AssistantMessage 1]
  /\ option_map Part000.state (nth_error (exchanges two_sends) 0)
     = Some Reading
  /\ option_map Part000.indicator (nth_error (exchanges two_sends) 0)
     = Some true
  /\ option_map Part000.chainContainer
       (nth_error
          (exchanges
             (deliver
                (Part000.resume
                   (ReadChunk
                      (jq "data: {'type':'chain','content':'Critic: late'}")))
                0 two_sends))
          0)
     = Some [Part000.RoleSpan (js "Critic");
             Part000.ChainContent (js "Critic: late")].
Proof. repeat split; vm_compute; reflexivity. Qed.

(** C9, amended: nothing is cancelled.  Every activation of [sendMessage]
    owns an assistant element of its own.  Sending a message appends at most
    one activation and leaves every earlier activation as it was: still
    reading if it was, its indicator in place.  A read delivered to one
    activation resumes that activation alone: it changes no other
    activation, nor the list of messages, the requests, the chat id or the
    input.  So each exchange goes on consuming its own stream and updating
    its own element until that stream ends or fails. *)
Theorem C9_exchanges_run_side_by_side (w : world) (r : read_result)
        (id : nat) (p : page MainJs.exchange) (q : page Part000.exchange) :
  (forall j x, nth_error (exchanges p) j = Some x ->
               nth_error (exchanges (fst (MainJs.start w p))) j = Some x)
  /\ (forall j y, nth_error (exchanges q) j = Some y ->
                  nth_error (exchanges (fst (Part000.start w q))) j = Some y)
  /\ length (exchanges (fst (MainJs.start w p))) <= S (length (exchanges p))
  /\ length (exchanges (fst (Part000.start w q))) <= S (length (exchanges q))
  /\ (forall j, j <> id ->
        nth_error (exchanges (deliver (MainJs.resume r) id p)) j
        = nth_error (exchanges p) j)
  /\ (forall j, j <> id ->
        nth_error (exchanges (deliver (Part000.resume r) id q)) j
        = nth_error (exchanges q) j)
  /\ nth_error (exchanges (deliver (MainJs.resume r) id p)) id
     = option_map (MainJs.resume r) (nth_error (exchanges p) id)
  /\ nth_error (exchanges (deliver (Part000.resume r) id q)) id
     = option_map (Part000.resume r) (nth_error (exchanges q) id)
  /\ (let p' := deliver (MainJs.resume r) id p in
      chatMessages p' = chatMessages p /\ requests p' = requests p
      /\ currentChatId p' = currentChatId p
      /\ messageInput p' = messageInput p)
  /\ (let q' := deliver (Part000.resume r) id q in
      chatMessages q' = chatMessages q /\ requests q' = requests q
      /\ currentChatId q' = currentChatId q
      /\ messageInput q' = messageInput q).
Proof.
  destruct (main_start_exchanges w p) as [Mp _].
  destruct (part_start_exchanges w q) as [Mq _].
  repeat split.
  - intros j x H. rewrite Mp. rewrite nth_error_app1; [assumption|].
    apply nth_error_Some. congruence.
  - intros j y H. rewrite Mq. rewrite nth_error_app1; [assumption|].
    apply nth_error_Some. congruence.
  - rewrite Mp, length_app.
    destruct (snd (MainJs.start w p)); simpl; lia.
  - rewrite Mq, length_app.
    destruct (snd (Part000.start w q)); simpl; lia.
  - intros j Hj. simpl. rewrite nth_error_update_at.
    destruct (Nat.eqb_spec id j); [congruence|reflexivity].
  - intros j Hj. simpl. rewrite nth_error_update_at.
    destruct (Nat.eqb_spec id j); [congruence|reflexivity].
  - simpl. rewrite nth_error_update_at. now rewrite Nat.eqb_refl.
  - simpl. rewrite nth_error_update_at. now rewrite Nat.eqb_refl.
Qed.

(** The theorem at the page of the two sends: the first activation is as it
    was before the second message was sent. *)
Lemma C9_side_by_side_witness :
  nth_error
    (exchanges
       (fst (Part000.start (mkWorld None true true [])
               (type_message (js "second")
                  (fst (Part000.start (mkWorld None true true [])
                          (mkPage (js "first") (js "llama3") (Some 4%N)
                                  [] [] [] [])))))))
    0
  = Some Part000.fresh.
Proof.
  refine (proj1 (proj2
    (C9_exchanges_run_side_by_side (mkWorld None true true []) ReadDone 0
       (mkPage [] [] None [] [] [] [])
       (type_message (js "second")
          (fst (Part000.start (mkWorld None true true [])
                  (mkPage (js "first") (js "llama3") (Some 4%N)
                          [] [] [] [])))))) 0 Part000.fresh eq_refl).
Defined.

(* ================================================================== *)
(** * Further properties: the typing indicator *)
(* ================================================================== *)

Lemma main_on_line_cases (line : jsstring) (x : MainJs.exchange) :
  snd (MainJs.on_line line x) = x
  \/ snd (MainJs.on_line line x) = snd (MainJs.console_error SyntaxError x)
  \/ exists data, snd (MainJs.on_line line x) = MainJs.dispatch data x.
Proof.
  destruct (startsWith (js "data: ") line) eqn:Hp.
  - destruct (JSON_parse (slice 6 line)) as [data|] eqn:Hj.
    + right; right. exists data.
      now rewrite (main_on_line_parsed line data x Hp Hj).
    + right; left. now rewrite (main_on_line_malformed line x Hp Hj).
  - left. now rewrite (main_on_line_ignored line x Hp).
Qed.

Lemma part_dispatch_indicator (data : value) (y : Part000.exchange) :
  Part000.indicator (Part000.dispatch data y) = Part000.indicator y.
Proof.
  destruct y. unfold_part. cbn -[js].
  repeat (break_inner; cbn -[js]; try reflexivity).
Qed.

Lemma part_line_run_indicator (lines : list jsstring)
      (y : Part000.exchange) :
  Part000.indicator (Part000.line_run lines y) = Part000.indicator y.
Proof.
  revert y. induction lines as [|l ls IH]; intros y; [reflexivity|].
  unfold Part000.line_run in *. simpl. rewrite IH.
  destruct (part_on_line_cases l y) as [-> | [-> | [data ->]]];
    [reflexivity | reflexivity | apply part_dispatch_indicator].
Qed.

Lemma part_resume_indicator (r : read_result) (y : Part000.exchange) :
  indicator_matches y -> indicator_matches (Part000.resume r y).
Proof.
  unfold indicator_matches. intros H.
  destruct (Part000.state y) eqn:S.
  - destruct r as [chunk| |].
    + rewrite (part_resume_chunk chunk y S).
      change (Part000.indicator (Part000.set_scrolls ?n ?z))
        with (Part000.indicator z).
      change (Part000.state (Part000.set_scrolls ?n ?z))
        with (Part000.state z).
      now rewrite part_line_run_indicator, part_line_run_state, S.
    + unfold Part000.resume. rewrite S. reflexivity.
    + unfold Part000.resume. rewrite S. reflexivity.
  - unfold Part000.resume. rewrite S. now rewrite S.
  - unfold Part000.resume. rewrite S. now rewrite S.
Qed.

(** X1: in part_000 the typing indicator is in place exactly as long as the
    activation is reading: whatever the reads deliver, it is present while
    the stream is being read and removed once the stream has ended or
    failed, and it is removed at once when the request itself fails. *)
Theorem indicator_present_iff_reading (w : world) (rs : list read_result) :
  let y := Run.part rs (Part000.open_exchange w) in
  Part000.indicator y
  = match Part000.state y with
    | Reading => true
    | Completed | Failed => false
    end.
Proof.
  cbv zeta. unfold Run.part.
  assert (H0 : indicator_matches (Part000.open_exchange w)).
  { unfold Part000.open_exchange. now destruct (responded w). }
  revert H0. generalize (Part000.open_exchange w).
  induction rs as [|r rs IH]; intros y H; [exact H|].
  simpl. apply IH. now apply part_resume_indicator.
Qed.

(* ================================================================== *)
(** * Further properties: lines without the prefix *)
(* ================================================================== *)

Lemma main_line_run_ignored (lines : list jsstring) (x : MainJs.exchange) :
  Forall (fun l => startsWith (js "data: ") l = false) lines ->
  MainJs.line_run lines x = x.
Proof.
  induction 1 as [|l ls Hl _ IH]; [reflexivity|].
  unfold MainJs.line_run in *. simpl.
  now rewrite (main_on_line_ignored l x Hl).
Qed.

Lemma part_line_run_ignored (lines : list jsstring) (y : Part000.exchange) :
  Forall (fun l => startsWith (js "data: ") l = false) lines ->
  Part000.line_run lines y = y.
Proof.
  induction 1 as [|l ls Hl _ IH]; [reflexivity|].
  unfold Part000.line_run in *. simpl.
  now rewrite (part_on_line_ignored l y Hl).
Qed.

Lemma main_run_chunks_app (c1 c2 : list jsstring) (x : MainJs.exchange) :
  MainJs.run_chunks (c1 ++ c2) x
  = MainJs.run_chunks c2 (MainJs.run_chunks c1 x).
Proof. unfold MainJs.run_chunks. apply fold_left_app. Qed.

Lemma part_run_chunks_app (c1 c2 : list jsstring) (y : Part000.exchange) :
  Part000.run_chunks (c1 ++ c2) y
  = Part000.run_chunks c2 (Part000.run_chunks c1 y).
Proof. unfold Part000.run_chunks. apply fold_left_app. Qed.

(** X2: chunks none of whose lines starts with 'data: ' (blank lines,
    keep-alive comments, other fields of the event stream) are ignored: read
    after any other chunks, they leave the exchange of main.js as it was, and
    that of part_000 as it was but for the one scroll per chunk. *)
Theorem chunks_without_frames_are_ignored (before quiet : list jsstring)
        (at_bottom : bool) :
  Forall (fun l => startsWith (js "data: ") l = false) (decoded_lines quiet) ->
  MainJs.run_chunks (before ++ quiet) (MainJs.fresh at_bottom)
  = MainJs.run_chunks before (MainJs.fresh at_bottom)
  /\ Part000.run_chunks (before ++ quiet) Part000.fresh
     = Part000.set_scrolls (length before + length quiet)
         (Part000.run_chunks before Part000.fresh).
Proof.
  intros H. split.
  - rewrite main_run_chunks_app.
    rewrite (main_run_chunks_lines quiet)
      by apply main_run_chunks_reading.
    now apply main_line_run_ignored.
  - rewrite part_run_chunks_app.
    rewrite (part_run_chunks_lines quiet)
      by apply part_run_chunks_reading.
    rewrite (part_line_run_ignored _ _ H).
    rewrite (part_run_chunks_lines before) by reflexivity.
    now destruct (Part000.line_run _ _).
Qed.

(** The theorem at a comment line and a blank line of an event stream. *)
Lemma chunks_without_frames_witness :
  MainJs.run_chunks
    ([jq "data: {'response':'Hi'}" ++ [LF]]
       ++ [js ": keep-alive" ++ [LF; LF]])
    (MainJs.fresh true)
  = MainJs.run_chunks [jq "data: {'response':'Hi'}" ++ [LF]]
                      (MainJs.fresh true).
Proof.
  refine (proj1 (chunks_without_frames_are_ignored
                   [jq "data: {'response':'Hi'}" ++ [LF]]
                   [js ": keep-alive" ++ [LF; LF]] true _)).
  repeat constructor.
Defined.

(* ================================================================== *)
(** * Further properties: the final answer and its toggles *)
(* ================================================================== *)

Lemma part_dispatch_typed (k c : jsstring) (y : Part000.exchange) :
  Part000.dispatch (Part000.typed_event k c) y
  = if JsString.eqb k (js "chain") then Part000.after_chain c y
    else if JsString.eqb k (js "final") then Part000.after_final c y
    else y.
Proof.
  destruct (JsString.eqb k (js "chain")) eqn:E1.
  - apply eqb_eq in E1. subst k. apply part_dispatch_typed_chain.
  - destruct (JsString.eqb k (js "final")) eqn:E2.
    + apply eqb_eq in E2. subst k. apply part_dispatch_typed_final.
    + apply part_dispatch_other; assumption.
Qed.

Lemma typed_events_final (evs : list (jsstring * jsstring))
      (y : Part000.exchange) :
  let y' := Part000.apply_events (typed_events evs) y in
  Part000.finalContainer y'
  = match last_final evs with
    | Some c => Rendered c
    | None => Part000.finalContainer y
    end
  /\ Part000.finalAnswer y'
     = match last_final evs with
       | Some c => VStr c
       | None => Part000.finalAnswer y
       end
  /\ Part000.reasoningToggles y'
     = Part000.reasoningToggles y ++ repeat false (count_final evs)
  /\ Part000.chainDisplay y'
     = match last_final evs with
       | Some _ => Part000.DisplayNone
       | None => Part000.chainDisplay y
       end
  /\ Part000.finalDisplay y'
     = match last_final evs with
       | Some _ => Part000.DisplayBlock
       | None => Part000.finalDisplay y
       end.
Proof.
  cbv zeta. unfold last_final, count_final.
  revert y. induction evs as [|[k c] evs IH] using rev_ind; intros y.
  - simpl. now rewrite app_nil_r.
  - unfold typed_events. rewrite map_app, part_apply_events_app.
    rewrite filter_app, length_app, fold_left_app, repeat_app.
    fold (typed_events evs).
    destruct (IH y) as (A & B & C & D & E). clear IH.
    cbn [map Part000.apply_events fold_left fst snd filter].
    rewrite part_dispatch_typed.
    set (z := Part000.apply_events (typed_events evs) y) in *.
    destruct (JsString.eqb k (js "chain")) eqn:E1.
    + apply eqb_eq in E1. subst k.
      replace (JsString.eqb (js "chain") (js "final")) with false
        by reflexivity.
      cbn [length repeat]. rewrite app_nil_r.
      unfold Part000.after_chain, Part000.stored.
      destruct (Part000.role_of c); destruct z; simpl in *; auto.
    + destruct (JsString.eqb k (js "final")) eqn:E2.
      * cbn [length repeat]. unfold Part000.after_final. simpl.
        rewrite C, <- app_assoc. auto.
      * cbn [length repeat]. rewrite app_nil_r. auto.
Qed.

(** X3: in part_000 a final event replaces the final answer, it does not
    append to it: after any sequence of typed events read by a fresh
    exchange, the final-answer container shows the content of the last final
    event alone (nothing if there was none), and chain events or events of
    other types never change it.  Every final event adds one more reasoning
    toggle, collapsed, so N final events leave N toggles. *)
Theorem final_answer_is_last_final_event (evs : list (jsstring * jsstring)) :
  let y := Part000.apply_events (typed_events evs) Part000.fresh in
  Part000.finalContainer y
  = match last_final evs with
    | Some c => Rendered c
    | None => Empty
    end
  /\ Part000.finalAnswer y
     = match last_final evs with
       | Some c => VStr c
       | None => VStr []
       end
  /\ Part000.reasoningToggles y = repeat false (count_final evs)
  /\ Part000.chainDisplay y
     = match last_final evs with
       | Some _ => Part000.DisplayNone
       | None => Part000.DisplayDefault
       end.
Proof.
  cbv zeta.
  destruct (typed_events_final evs Part000.fresh) as (A & B & C & D & _).
  repeat split; assumption.
Qed.

(* ================================================================== *)
(** * Further properties: the reasoning toggle *)
(* ================================================================== *)

Lemma click_in_range (k : nat) (e : bool) (y : Part000.exchange) :
  nth_error (Part000.reasoningToggles y) k = Some e ->
  Part000.click k y
  = Part000.set_reasoningToggles
      (update_at k negb (Part000.reasoningToggles y))
      (Part000.set_chainDisplay
         (if e then Part000.DisplayNone else Part000.DisplayBlock) y).
Proof. intros H. unfold Part000.click. now rewrite H. Qed.

(** X4: clicks on a reasoning toggle of part_000.  After n clicks on the
    toggle k, that toggle is expanded iff its initial state and the parity
    of n say so, the other toggles are as they were, and (for n at least 1)
    the chain panel is displayed iff the toggle is now expanded.  The clicks
    change neither the content of the chain panel, nor the final answer and
    its visibility, nor the phase. *)
Theorem toggle_clicks_show_and_hide (y : Part000.exchange) (k n : nat)
        (e : bool) :
  nth_error (Part000.reasoningToggles y) k = Some e ->
  let y' := Nat.iter n (Part000.click k) y in
  nth_error (Part000.reasoningToggles y') k = Some (xorb e (Nat.odd n))
  /\ (forall j, j <> k ->
        nth_error (Part000.reasoningToggles y') j
        = nth_error (Part000.reasoningToggles y) j)
  /\ (0 < n ->
      Part000.chainDisplay y'
      = if xorb e (Nat.odd n) then Part000.DisplayBlock
        else Part000.DisplayNone)
  /\ Part000.chainContainer y' = Part000.chainContainer y
  /\ Part000.finalContainer y' = Part000.finalContainer y
  /\ Part000.finalDisplay y' = Part000.finalDisplay y
  /\ Part000.phase_of y' = Part000.phase_of y.
Proof.
  intros H. cbv zeta. induction n as [|n IH].
  - simpl. rewrite xorb_false_r. repeat split; auto. lia.
  - destruct IH as (T & O & D & C & F & FD & P).
    change (Nat.iter (S n) (Part000.click k) y)
      with (Part000.click k (Nat.iter n (Part000.click k) y)).
    set (z := Nat.iter n (Part000.click k) y) in *.
    rewrite (click_in_range k _ z T).
    rewrite Nat.odd_succ, <- Nat.negb_odd.
    repeat split.
    + cbn. rewrite nth_error_update_at, Nat.eqb_refl, T. simpl.
      now destruct e, (Nat.odd n).
    + intros j Hj. cbn. rewrite nth_error_update_at.
      destruct (Nat.eqb_spec k j); [congruence|]. now apply O.
    + intros _. cbn. now destruct e, (Nat.odd n).
    + exact C.
    + exact F.
    + exact FD.
    + rewrite <- P. unfold Part000.phase_of. cbn. reflexivity.
Qed.

(** The theorem after one final event: the panel is hidden with one
    collapsed toggle; three clicks leave the panel displayed. *)
Lemma toggle_clicks_witness :
  Part000.chainDisplay
    (Nat.iter 3 (Part000.click 0)
       (Part000.dispatch (Part000.typed_event (js "final") (js "Done."))
                         Part000.fresh))
  = Part000.DisplayBlock.
Proof.
  refine (proj1 (proj2 (proj2
    (toggle_clicks_show_and_hide
       (Part000.dispatch (Part000.typed_event (js "final") (js "Done."))
                         Part000.fresh)
       0 3 false eq_refl))) _).
  repeat constructor.
Defined.

(* ================================================================== *)
(** * Further properties: scrolling *)
(* ================================================================== *)

Lemma main_dispatch_scroll (data : value) (x : MainJs.exchange) :
  MainJs.isAtBottom (MainJs.dispatch data x) = MainJs.isAtBottom x
  /\ (MainJs.isAtBottom x = false ->
      MainJs.scrollFrames (MainJs.dispatch data x) = MainJs.scrollFrames x).
Proof.
  unfold MainJs.dispatch, MainJs.handle_data, try_catch, bind, lift.
  destruct (get_prop (js "response") data) as [r|]; [|split; reflexivity].
  unfold ret. destruct (truthy r); [|split; reflexivity].
  simpl. split; [reflexivity|]. now intros ->.
Qed.

Lemma main_line_run_never_scrolled (lines : list jsstring)
      (x : MainJs.exchange) :
  never_scrolled x -> never_scrolled (MainJs.line_run lines x).
Proof.
  revert x. induction lines as [|l ls IH]; intros x H; [exact H|].
  unfold MainJs.line_run in *. simpl. apply IH.
  destruct H as [B F].
  destruct (main_on_line_cases l x) as [-> | [-> | [data ->]]].
  - now split.
  - now split.
  - destruct (main_dispatch_scroll data x) as [B' F'].
    split; [congruence|]. rewrite F' by assumption. assumption.
Qed.

Lemma main_resume_never_scrolled (r : read_result) (x : MainJs.exchange) :
  never_scrolled x -> never_scrolled (MainJs.resume r x).
Proof.
  intros H. destruct (MainJs.state x) eqn:S.
  - destruct r as [chunk| |].
    + rewrite (main_resume_chunk chunk x S).
      now apply main_line_run_never_scrolled.
    + unfold MainJs.resume. rewrite S. exact H.
    + unfold MainJs.resume. rewrite S. exact H.
  - unfold MainJs.resume. now rewrite S.
  - unfold MainJs.resume. now rewrite S.
Qed.

Lemma main_tokens_scroll (mss : list (list (jsstring * value)))
      (rs : list jsstring) :
  Forall2 (fun ms r => lookup (js "response") ms = VStr r) mss rs ->
  forall x,
    MainJs.isAtBottom x = true ->
    MainJs.scrollFrames (MainJs.apply_events (map VObj mss) x)
    = MainJs.scrollFrames x + length (filter non_empty rs).
Proof.
  induction 1 as [|ms r mss rs Hr _ IH]; intros x Hx.
  - simpl. now rewrite Nat.add_0_r.
  - change (MainJs.apply_events (map VObj (ms :: mss)) x)
      with (MainJs.apply_events (map VObj mss) (MainJs.dispatch (VObj ms) x)).
    rewrite (main_dispatch_string ms r x Hr).
    destruct r as [|c r]; simpl.
    + now apply IH.
    + rewrite IH by exact Hx. simpl. rewrite Hx. lia.
Qed.

(** X5: the scrolling policy.  In main.js a user who was not at the bottom
    of the message list when the message was sent is never scrolled,
    whatever the stream delivers; for a user who was, one scroll is
    scheduled per token event with a non-empty fragment.  In part_000 the
    list is scrolled to the bottom once per chunk read, unconditionally. *)
Theorem scroll_only_if_at_bottom (w : world) (reads_ : list read_result)
        (mss : list (list (jsstring * value))) (rs chunks : list jsstring) :
  atBottom w = false ->
  Forall2 (fun ms r => lookup (js "response") ms = VStr r) mss rs ->
  MainJs.scrollFrames (Run.main reads_ (MainJs.open_exchange w)) = 0
  /\ MainJs.scrollFrames
       (MainJs.apply_events (map VObj mss) (MainJs.fresh true))
     = length (filter non_empty rs)
  /\ Part000.scrolls (Part000.run_chunks chunks Part000.fresh)
     = length chunks.
Proof.
  intros Hw Hrs. split; [|split].
  - assert (H0 : never_scrolled (MainJs.open_exchange w)).
    { unfold MainJs.open_exchange, never_scrolled. rewrite Hw.
      now destruct (responded w). }
    revert H0. unfold Run.main. generalize (MainJs.open_exchange w).
    induction reads_ as [|r reads_ IH]; intros x H; [apply H|].
    simpl. apply IH. now apply main_resume_never_scrolled.
  - now rewrite (main_tokens_scroll mss rs Hrs (MainJs.fresh true) eq_refl).
  - rewrite part_run_chunks_lines by reflexivity. reflexivity.
Qed.

(** The theorem at a user who scrolled up and receives two fragments. *)
Lemma scroll_only_if_at_bottom_witness :
  MainJs.scrollFrames
    (Run.main [ReadChunk (jq "data: {'response':'Hel'}" ++ [LF]);
               ReadChunk (jq "data: {'response':'lo'}" ++ [LF]); ReadDone]
              (MainJs.open_exchange (mkWorld None false true [])))
  = 0.
Proof.
  refine (proj1 (scroll_only_if_at_bottom
    (mkWorld None false true [])
    [ReadChunk (jq "data: {'response':'Hel'}" ++ [LF]);
     ReadChunk (jq "data: {'response':'lo'}" ++ [LF]); ReadDone]
    [] [] [] eq_refl (Forall2_nil _))).
Defined.

(* ================================================================== *)
(** * Further properties: every frame on the wire is decoded *)
(* ================================================================== *)

Lemma parse_chars_encodes (body s rest : jsstring) :
  Wire.encodes body s ->
  parse_chars (body ++ 34%N :: rest) = Some (s, rest).
Proof.
  induction 1 as [|c body s H34 H92 H32 _ IH|e u body s He _ IH
                  |h1 h2 h3 h4 u body s Hh _ IH].
  - reflexivity.
  - cbn [app parse_chars]. now rewrite H34, H92, H32, IH.
  - cbn [app parse_chars]. cbn.
    destruct (N.eqb_spec e 117) as [->|_]; [discriminate|].
    now rewrite He, IH.
  - cbn [app parse_chars]. cbn. now rewrite Hh, IH.
Qed.

Lemma hex_val_hex_digit (d : N) :
  (d < 16)%N -> hex_val (Wire.hex_digit d) = Some d.
Proof.
  intros H.
  assert (C : In d [0;1;2;3;4;5;6;7;8;9;10;11;12;13;14;15]%N).
  { apply N.lt_le_pred in H. simpl in H.
    destruct d as [|p]; [now left|].
    do 4 (destruct p as [p|p|]; simpl; auto 20); lia. }
  simpl in C.
  repeat (destruct C as [<-|C]; [reflexivity|]). contradiction.
Qed.

Lemma encodes_quote (s : jsstring) : Wire.encodes (Wire.quote s) s.
Proof.
  induction s as [|c s IH]; [constructor|].
  unfold Wire.quote in *. cbn [flat_map]. unfold Wire.quote_unit.
  destruct (c =? 34)%N eqn:E34.
  - apply N.eqb_eq in E34. subst c. apply Wire.enc_escape; [reflexivity|exact IH].
  - destruct (c =? 92)%N eqn:E92.
    + apply N.eqb_eq in E92. subst c. apply Wire.enc_escape; [reflexivity|exact IH].
    + destruct (c <? 32)%N eqn:E32.
      * apply N.ltb_lt in E32.
        apply Wire.enc_unicode; [|exact IH].
        unfold hex4.
        rewrite (hex_val_hex_digit (c / 16))
          by (apply N.Div0.div_lt_upper_bound; lia).
        rewrite (hex_val_hex_digit (c mod 16))
          by (apply N.mod_lt; lia).
        cbn. f_equal. pose proof (N.div_mod c 16). lia.
      * now apply Wire.enc_plain.
Qed.

Lemma skip_ws_all (tail : jsstring) :
  forallb is_ws tail = true -> skip_ws tail = [].
Proof.
  induction tail as [|c tail IH]; [reflexivity|].
  simpl. intros H. apply andb_prop in H. destruct H as [Hc Ht].
  rewrite Hc. now apply IH.
Qed.

Lemma parse_typed_payload (bk bc kind content tail : jsstring) :
  Wire.encodes bk kind ->
  Wire.encodes bc content ->
  forallb is_ws tail = true ->
  JSON_parse (Wire.typed_payload bk bc tail)
  = Some (Part000.typed_event kind content).
Proof.
  intros Hk Hc Ht. unfold JSON_parse.
  assert (F : exists f, 2 * length (Wire.typed_payload bk bc tail) + 2
                        = S (S (S (S f)))).
  { unfold Wire.typed_payload. cbn. eexists. reflexivity. }
  destruct F as [f ->].
  unfold Wire.typed_payload.
  change (jq "{'type':'" ++ bk ++ jq "','content':'" ++ bc ++ jq "'}" ++ tail)
    with (123 :: 34 :: 116 :: 121 :: 112 :: 101 :: 34 :: 58 :: 34
          :: (bk ++ 34 :: 44 :: 34 :: 99 :: 111 :: 110 :: 116 :: 101 :: 110
                :: 116 :: 34 :: 58 :: 34 :: (bc ++ 34 :: 125 :: tail)))%N.
  cbn -[parse_chars]. cbn [parse_chars N.eqb Pos.eqb N.ltb N.compare
                             Pos.compare Pos.compare_cont].
  cbn -[parse_chars].
  rewrite (parse_chars_encodes bk kind _ Hk).
  cbn -[parse_chars].
  cbn [parse_chars N.eqb Pos.eqb N.ltb N.compare
                   Pos.compare Pos.compare_cont].
  cbn -[parse_chars].
  rewrite (parse_chars_encodes bc content _ Hc).
  cbn -[parse_chars skip_ws].
  change (skip_ws (125%N :: tail)) with (125%N :: tail).
  cbn -[parse_chars skip_ws].
  now rewrite (skip_ws_all tail Ht).
Qed.

Lemma parse_token_payload (br fragment tail : jsstring) :
  Wire.encodes br fragment ->
  forallb is_ws tail = true ->
  JSON_parse (Wire.token_payload br tail) = Some (MainJs.token_event fragment).
Proof.
  intros Hr Ht. unfold JSON_parse.
  assert (F : exists f, 2 * length (Wire.token_payload br tail) + 2
                        = S (S (S f))).
  { unfold Wire.token_payload. cbn. eexists. reflexivity. }
  destruct F as [f ->].
  unfold Wire.token_payload.
  change (jq "{'response':'" ++ br ++ jq "'}" ++ tail)
    with (123 :: 34 :: 114 :: 101 :: 115 :: 112 :: 111 :: 110 :: 115 :: 101
          :: 34 :: 58 :: 34 :: (br ++ 34 :: 125 :: tail))%N.
  cbn -[parse_chars]. cbn [parse_chars N.eqb Pos.eqb N.ltb N.compare
                             Pos.compare Pos.compare_cont].
  cbn -[parse_chars].
  rewrite (parse_chars_encodes br fragment _ Hr).
  cbn -[parse_chars skip_ws].
  change (skip_ws (125%N :: tail)) with (125%N :: tail).
  cbn -[parse_chars skip_ws].
  now rewrite (skip_ws_all tail Ht).
Qed.

Lemma encodes_chain : Wire.encodes (js "chain") (js "chain").
Proof. repeat (apply Wire.enc_plain; [reflexivity ..|]). constructor. Qed.

Lemma encodes_final : Wire.encodes (js "final") (js "final").
Proof. repeat (apply Wire.enc_plain; [reflexivity ..|]). constructor. Qed.

(** X6: every chain or final frame is decoded by part_000.  Whatever the
    content string and however its JSON literal is written (plain
    characters, two-character escapes, [\uXXXX] escapes), the line
    [data: {"type":"chain","content":...}], with or without white space
    after it (a carriage return, say), makes the line handler perform the
    chain update with exactly that content, and the same line with type
    final the final update.  Every string has such a literal. *)
Theorem typed_frames_are_decoded (body content tail : jsstring)
        (y : Part000.exchange) :
  Wire.encodes body content ->
  forallb is_ws tail = true ->
  Part000.on_line (Wire.frame (Wire.typed_payload (js "chain") body tail)) y
  = (Normal tt, Part000.after_chain content y)
  /\ Part000.on_line
       (Wire.frame (Wire.typed_payload (js "final") body tail)) y
     = (Normal tt, Part000.after_final content y)
  /\ Wire.encodes (Wire.quote content) content.
Proof.
  intros Hb Ht. split; [|split].
  - rewrite (part_on_line_parsed
               (Wire.frame (Wire.typed_payload (js "chain") body tail))
               (Part000.typed_event (js "chain") content) y eq_refl).
    + now rewrite part_dispatch_typed_chain.
    + exact (parse_typed_payload _ _ _ _ _ encodes_chain Hb Ht).
  - rewrite (part_on_line_parsed
               (Wire.frame (Wire.typed_payload (js "final") body tail))
               (Part000.typed_event (js "final") content) y eq_refl).
    + now rewrite part_dispatch_typed_final.
    + exact (parse_typed_payload _ _ _ _ _ encodes_final Hb Ht).
  - apply encodes_quote.
Qed.

(** The theorem at a content with a quotation mark and a line feed, the
    frame ending in a carriage return. *)
Lemma typed_frames_witness :
  Part000.on_line
    (Wire.frame
       (Wire.typed_payload (js "chain")
          (Wire.quote (jq "Critic: say 'no'" ++ [LF])) [13%N]))
    Part000.fresh
  = (Normal tt,
     Part000.after_chain (jq "Critic: say 'no'" ++ [LF]) Part000.fresh).
Proof.
  refine (proj1 (typed_frames_are_decoded
                   (Wire.quote (jq "Critic: say 'no'" ++ [LF]))
                   (jq "Critic: say 'no'" ++ [LF]) [13%N] Part000.fresh
                   _ eq_refl)).
  apply encodes_quote.
Defined.

(** X7: every token frame is decoded by main.js.  Whatever the fragment and
    however its JSON literal is written, the line
    [data: {"response":...}], with or without white space after it,
    appends exactly that fragment to the accumulated text and renders the
    whole again; for the empty fragment the line changes nothing. *)
Theorem token_frames_are_decoded (body fragment tail : jsstring)
        (x : MainJs.exchange) :
  Wire.encodes body fragment ->
  forallb is_ws tail = true ->
  MainJs.on_line (Wire.frame (Wire.token_payload body tail)) x
  = (Normal tt,
     match fragment with
     | [] => x
     | _ :: _ => MainJs.after_token fragment x
     end)
  /\ MainJs.fullMessage
       (snd (MainJs.on_line (Wire.frame (Wire.token_payload body tail)) x))
     = MainJs.fullMessage x ++ fragment.
Proof.
  intros Hb Ht.
  assert (E : MainJs.on_line (Wire.frame (Wire.token_payload body tail)) x
              = (Normal tt,
                 match fragment with
                 | [] => x
                 | _ :: _ => MainJs.after_token fragment x
                 end)).
  { rewrite (main_on_line_parsed
               (Wire.frame (Wire.token_payload body tail))
               (MainJs.token_event fragment) x eq_refl
               (parse_token_payload _ _ _ Hb Ht)).
    unfold MainJs.token_event.
    now rewrite (main_dispatch_string
                   [(js "response", VStr fragment)] fragment x eq_refl). }
  split; [exact E|]. rewrite E. simpl.
  destruct fragment; simpl; [now rewrite app_nil_r|reflexivity].
Qed.

(** The theorem at a fragment with a reverse solidus and a tab. *)
Lemma token_frames_witness :
  MainJs.fullMessage
    (snd (MainJs.on_line
            (Wire.frame
               (Wire.token_payload (Wire.quote [97%N; 92%N; 9%N; 98%N]) []))
            (MainJs.fresh true)))
  = [] ++ [97%N; 92%N; 9%N; 98%N].
Proof.
  refine (proj2 (token_frames_are_decoded
                   (Wire.quote [97%N; 92%N; 9%N; 98%N])
                   [97%N; 92%N; 9%N; 98%N] [] (MainJs.fresh true)
                   _ eq_refl)).
  apply encodes_quote.
Defined.

(* ================================================================== *)
(** * Further properties: [sendMessage] as a whole *)
(* ================================================================== *)

Lemma update_at_last {X : Type} (f : X -> X) (l : list X) (x : X) :
  update_at (length l) f (l ++ [x]) = l ++ [f x].
Proof. induction l as [|a l IH]; simpl; [reflexivity|now rewrite IH]. Qed.

Lemma deliver_fold_last {X : Type} (resume : read_result -> X -> X)
      (rs : list read_result) (l : list X) (x : X) (p : page X) :
  exchanges p = l ++ [x] ->
  let p' := fold_left (fun q r => deliver (resume r) (length l) q) rs p in
  exchanges p' = l ++ [fold_left (fun y r => resume r y) rs x]
  /\ messageInput p' = messageInput p
  /\ modelSelect p' = modelSelect p
  /\ currentChatId p' = currentChatId p
  /\ lastUserMessage p' = lastUserMessage p
  /\ chatMessages p' = chatMessages p
  /\ requests p' = requests p.
Proof.
  cbv zeta. revert x p. induction rs as [|r rs IH]; intros x p H.
  - simpl. repeat split; assumption.
  - cbn [fold_left].
    destruct (IH (resume r x) (deliver (resume r) (length l) p))
      as (E & A & B & C & D & F & G).
    + simpl. rewrite H. apply update_at_last.
    + repeat split; assumption.
Qed.

(** X8: an activation of [sendMessage] that runs alone.  When the message
    is sent (an activation is created), the page at the return is the page
    as it stood at the first read, with the one new activation brought to
    the state its reads lead to; the reads change neither the message list,
    nor the requests, the chat id, the input or any earlier activation.  In
    both clients. *)
Theorem sendMessage_runs_its_reads (w : world) (p : page MainJs.exchange)
        (q : page Part000.exchange) (idp idq : nat) :
  snd (MainJs.start w p) = Some idp ->
  snd (Part000.start w q) = Some idq ->
  (let p1 := fst (MainJs.start w p) in
   let p' := MainJs.sendMessage w p in
   exchanges p'
   = exchanges p ++ [Run.main (reads w) (MainJs.open_exchange w)]
   /\ chatMessages p' = chatMessages p1 /\ requests p' = requests p1
   /\ currentChatId p' = currentChatId p1
   /\ messageInput p' = messageInput p1)
  /\ (let q1 := fst (Part000.start w q) in
      let q' := Part000.sendMessage w q in
      exchanges q'
      = exchanges q ++ [Run.part (reads w) (Part000.open_exchange w)]
      /\ chatMessages q' = chatMessages q1 /\ requests q' = requests q1
      /\ currentChatId q' = currentChatId q1
      /\ messageInput q' = messageInput q1).
Proof.
  intros Hp Hq. cbv zeta. split.
  - destruct (main_start_exchanges w p) as [E L].
    rewrite Hp in E. pose proof (L idp Hp) as ->.
    unfold MainJs.sendMessage.
    destruct (MainJs.start w p) as [p1 o]. simpl in *. subst o.
    destruct (deliver_fold_last MainJs.resume (reads w) (exchanges p)
                (MainJs.open_exchange w) p1 E) as (A & B & _ & C & _ & D & F).
    repeat split; assumption.
  - destruct (part_start_exchanges w q) as [E L].
    rewrite Hq in E. pose proof (L idq Hq) as ->.
    unfold Part000.sendMessage.
    destruct (Part000.start w q) as [q1 o]. simpl in *. subst o.
    destruct (deliver_fold_last Part000.resume (reads w) (exchanges q)
                (Part000.open_exchange w) q1 E) as (A & B & _ & C & _ & D & F).
    repeat split; assumption.
Qed.

(** The theorem at a message sent to an open chat, answered by one token
    frame and the end of the stream. *)
Lemma sendMessage_runs_witness :
  exchanges
    (MainJs.sendMessage
       (mkWorld None true true
                [ReadChunk (jq "data: {'response':'Hi'}" ++ [LF]); ReadDone])
       (mkPage (js "hello") (js "llama3") (Some 4%N) [] [] [] []))
  = [] ++ [Run.main [ReadChunk (jq "data: {'response':'Hi'}" ++ [LF]);
                     ReadDone]
                    (MainJs.open_exchange
                       (mkWorld None true true
                          [ReadChunk (jq "data: {'response':'Hi'}" ++ [LF]);
                           ReadDone]))].
Proof.
  refine (proj1 (proj1 (sendMessage_runs_its_reads
    (mkWorld None true true
             [ReadChunk (jq "data: {'response':'Hi'}" ++ [LF]); ReadDone])
    (mkPage (js "hello") (js "llama3") (Some 4%N) [] [] [] [])
    (mkPage (js "hello") (js "llama3") (Some 4%N) [] [] [] [])
    0 0 eq_refl eq_refl))).
Defined.

Lemma start_in_new_chat (w : world) (id : N)
        (p : page MainJs.exchange) (q : page Part000.exchange) :
  trim (messageInput p) <> [] ->
  trim (messageInput q) <> [] ->
  falsy_id (currentChatId p) = true ->
  falsy_id (currentChatId q) = true ->
  created w = Some id ->
  (id =? 0)%N = false ->
  (let p1 := fst (MainJs.start w p) in
   chatMessages p1
   = [UserMessage (trim (messageInput p));
      AssistantMessage (length (exchanges p))]
   /\ requests p1
      = requests p ++ [CreateChat (modelSelect p);
                       SendChat (trim (messageInput p)) (modelSelect p)
                                (Some id)]
   /\ currentChatId p1 = Some id
   /\ messageInput p1 = [])
  /\ (let q1 := fst (Part000.start w q) in
      chatMessages q1 = [AssistantMessage (length (exchanges q))]
      /\ requests q1
         = requests q ++ [CreateChat (modelSelect q);
                          SendChat (trim (messageInput q)) (modelSelect q)
                                   (Some id)]
      /\ currentChatId q1 = Some id
      /\ messageInput q1 = []).
Proof.
  intros Hp Hq Fp Fq Hc Hid. cbv zeta.
  unfold MainJs.start, Part000.start.
  destruct (trim (messageInput p)) as [|a m]; [contradiction|].
  destruct (trim (messageInput q)) as [|b n]; [contradiction|].
  cbn [currentChatId]. rewrite Fp, Fq.
  unfold createNewChat. rewrite Hc. cbn [falsy_id]. rewrite Hid.
  cbn. rewrite <- !app_assoc. repeat split.
Qed.

(** X9: the first message of a new chat.  With no chat open and a chat
    creation that succeeds, both clients create the chat and then send the
    trimmed message to it.  In main.js the message list then holds the
    user's bubble and the assistant element.  In part_000 the user's bubble
    is created before the chat, and the creation of the chat empties the
    message list: the list then holds the assistant element alone. *)
Theorem first_message_of_new_chat (w : world) (id : N)
        (p : page MainJs.exchange) (q : page Part000.exchange) :
  trim (messageInput p) <> [] ->
  trim (messageInput q) <> [] ->
  falsy_id (currentChatId p) = true ->
  falsy_id (currentChatId q) = true ->
  created w = Some id ->
  (id =? 0)%N = false ->
  (let p1 := fst (MainJs.start w p) in
   chatMessages p1
   = [UserMessage (trim (messageInput p));
      AssistantMessage (length (exchanges p))]
   /\ requests p1
      = requests p ++ [CreateChat (modelSelect p);
                       SendChat (trim (messageInput p)) (modelSelect p)
                                (Some id)]
   /\ currentChatId p1 = Some id
   /\ messageInput p1 = [])
  /\ (let q1 := fst (Part000.start w q) in
      chatMessages q1 = [AssistantMessage (length (exchanges q))]
      /\ requests q1
         = requests q ++ [CreateChat (modelSelect q);
                          SendChat (trim (messageInput q)) (modelSelect q)
                                   (Some id)]
      /\ currentChatId q1 = Some id
      /\ messageInput q1 = []).
Proof. apply start_in_new_chat. Qed.

(** The theorem at a page without a chat. *)
Lemma first_message_witness :
  chatMessages
    (fst (Part000.start (mkWorld (Some 7%N) true true [])
            (mkPage (js " hello ") (js "llama3") None [] [] [] [])))
  = [AssistantMessage 0].
Proof.
  refine (proj1 (proj2 (first_message_of_new_chat
    (mkWorld (Some 7%N) true true []) 7
    (mkPage (js " hello ") (js "llama3") None [] [] [] [])
    (mkPage (js " hello ") (js "llama3") None [] [] [] [])
    _ _ eq_refl eq_refl eq_refl eq_refl))); vm_compute; discriminate.
Defined.

(** X10: a chat that cannot be created.  With no chat open and a chat
    creation that fails, neither client sends the message or creates an
    assistant element; both have recorded lastUserMessage.  main.js leaves
    the text in the input and the message list as it was; part_000 has
    already emptied the input and added the user's bubble. *)
Theorem message_without_chat_is_not_sent (w : world)
        (p : page MainJs.exchange) (q : page Part000.exchange) :
  trim (messageInput p) <> [] ->
  trim (messageInput q) <> [] ->
  falsy_id (currentChatId p) = true ->
  falsy_id (currentChatId q) = true ->
  created w = None ->
  MainJs.sendMessage w p
  = mkPage (messageInput p) (modelSelect p) (currentChatId p)
           (trim (messageInput p)) (chatMessages p)
           (requests p ++ [CreateChat (modelSelect p)]) (exchanges p)
  /\ Part000.sendMessage w q
     = mkPage [] (modelSelect q) (currentChatId q) (trim (messageInput q))
              (chatMessages q ++ [UserMessage (trim (messageInput q))])
              (requests q ++ [CreateChat (modelSelect q)]) (exchanges q).
Proof.
  intros Hp Hq Fp Fq Hc.
  unfold MainJs.sendMessage, Part000.sendMessage, MainJs.start,
    Part000.start.
  destruct (trim (messageInput p)) as [|a m]; [contradiction|].
  destruct (trim (messageInput q)) as [|b n]; [contradiction|].
  cbn [currentChatId]. rewrite Fp, Fq.
  unfold createNewChat. rewrite Hc. cbn. split; reflexivity.
Qed.

(** The theorem at a page without a chat and a server that refuses. *)
Lemma message_without_chat_witness :
  MainJs.sendMessage (mkWorld None true true [ReadDone])
    (mkPage (js "hello") (js "llama3") None [] [] [] [])
  = mkPage (js "hello") (js "llama3") None (js "hello") []
           [CreateChat (js "llama3")] [].
Proof.
  refine (proj1 (message_without_chat_is_not_sent
    (mkWorld None true true [ReadDone])
    (mkPage (js "hello") (js "llama3") None [] [] [] [])
    (mkPage (js "hello") (js "llama3") None [] [] [] [])
    _ _ eq_refl eq_refl eq_refl)); vm_compute; discriminate.
Defined.

Lemma deliver_fold_requests {X : Type} (resume : read_result -> X -> X)
      (rs : list read_result) (id : nat) (p : page X) :
  requests (fold_left (fun q r => deliver (resume r) id q) rs p) = requests p.
Proof.
  revert p. induction rs as [|r rs IH]; intros p; [reflexivity|].
  cbn [fold_left]. now rewrite IH.
Qed.

Lemma main_sendMessage_requests (w : world) (p : page MainJs.exchange) :
  requests (MainJs.sendMessage w p) = requests (fst (MainJs.start w p)).
Proof.
  unfold MainJs.sendMessage. destruct (MainJs.start w p) as [p1 [id|]];
    [apply deliver_fold_requests|reflexivity].
Qed.

Lemma part_sendMessage_requests (w : world) (q : page Part000.exchange) :
  requests (Part000.sendMessage w q) = requests (fst (Part000.start w q)).
Proof.
  unfold Part000.sendMessage. destruct (Part000.start w q) as [q1 [id|]];
    [apply deliver_fold_requests|reflexivity].
Qed.

Lemma falsy_id_some (n : N) : (n =? 0)%N = false -> falsy_id (Some n) = false.
Proof. intros H. exact H. Qed.

(** X11: what is never sent.  Every chat request that [sendMessage] adds to
    those already issued carries the trimmed text of the input, which is not
    empty, the selected model, and a chat id that is neither null nor 0: no
    empty message and no message without a chat is ever posted.  In both
    clients, whatever the environment answers. *)
Theorem no_empty_message_and_no_message_without_chat (w : world)
        (p : page MainJs.exchange) (q : page Part000.exchange)
        (m model : jsstring) (cid : option N) :
  (In (SendChat m model cid) (requests (MainJs.sendMessage w p)) ->
   In (SendChat m model cid) (requests p)
   \/ (m = trim (messageInput p) /\ m <> [] /\ model = modelSelect p
       /\ falsy_id cid = false))
  /\ (In (SendChat m model cid) (requests (Part000.sendMessage w q)) ->
      In (SendChat m model cid) (requests q)
      \/ (m = trim (messageInput q) /\ m <> [] /\ model = modelSelect q
          /\ falsy_id cid = false)).
Proof.
  split.
  - rewrite main_sendMessage_requests. unfold MainJs.start.
    destruct (trim (messageInput p)) as [|a t] eqn:T; [now left|].
    cbn [currentChatId].
    destruct (falsy_id (currentChatId p)) eqn:F.
    + unfold createNewChat. destruct (created w) as [n|]; cbn [falsy_id].
      * destruct (n =? 0)%N eqn:Z; cbn; intros H.
        -- apply in_app_or in H. destruct H as [H|[H|[]]];
             [now left|discriminate].
        -- rewrite <- app_assoc in H. apply in_app_or in H.
           destruct H as [H|[H|[H|[]]]]; [now left|discriminate|].
           right. inversion H; subst. repeat split; [discriminate|exact Z].
      * cbn. intros H. apply in_app_or in H.
        destruct H as [H|[H|[]]]; [now left|discriminate].
    + cbn. intros H. apply in_app_or in H.
      destruct H as [H|[H|[]]]; [now left|].
      right. inversion H; subst. repeat split; [discriminate|exact F].
  - rewrite part_sendMessage_requests. unfold Part000.start.
    destruct (trim (messageInput q)) as [|a t] eqn:T; [now left|].
    cbn [currentChatId].
    destruct (falsy_id (currentChatId q)) eqn:F.
    + unfold createNewChat. destruct (created w) as [n|]; cbn [falsy_id].
      * destruct (n =? 0)%N eqn:Z; cbn; intros H.
        -- apply in_app_or in H. destruct H as [H|[H|[]]];
             [now left|discriminate].
        -- rewrite <- app_assoc in H. apply in_app_or in H.
           destruct H as [H|[H|[H|[]]]]; [now left|discriminate|].
           right. inversion H; subst. repeat split; [discriminate|exact Z].
      * cbn. intros H. apply in_app_or in H.
        destruct H as [H|[H|[]]]; [now left|discriminate].
    + cbn. intros H. apply in_app_or in H.
      destruct H as [H|[H|[]]]; [now left|].
      right. inversion H; subst. repeat split; [discriminate|exact F].
Qed.

(** The theorem at a message sent to an open chat. *)
Lemma no_empty_message_witness :
  In (SendChat (js "hello") (js "llama3") (Some 4%N)) []
  \/ (js "hello" = trim (js " hello ") /\ js "hello" <> []
      /\ js "llama3" = js "llama3" /\ falsy_id (Some 4%N) = false).
Proof.
  refine (proj1 (no_empty_message_and_no_message_without_chat
    (mkWorld None true true [ReadDone])
    (mkPage (js " hello ") (js "llama3") (Some 4%N) [] [] [] [])
    (mkPage [] [] None [] [] [] [])
    (js "hello") (js "llama3") (Some 4%N)) _).
  vm_compute. now left.
Defined.

(* ================================================================== *)
(** * Further properties: the address of a chat *)
(* ================================================================== *)

Lemma digits_forall (P : code_unit -> Prop) (u : Decimal.uint) :
  (forall c, (48 <= c <= 57)%N -> P c) -> Forall P (Url.digits u).
Proof.
  intros H. induction u; simpl; constructor; auto; apply H; lia.
Qed.

Lemma take_digits_all (ds : jsstring) :
  Forall (fun c => is_digit c = true) ds -> take_digits ds = (ds, []).
Proof.
  induction 1 as [|c ds Hc _ IH]; [reflexivity|].
  simpl. now rewrite Hc, IH.
Qed.

Lemma split_without_sep (sep : code_unit) (s : jsstring) :
  Forall (fun c => (c =? sep)%N = false) s -> split sep s = [s].
Proof.
  induction 1 as [|c s Hc _ IH]; [reflexivity|].
  simpl. now rewrite Hc, IH.
Qed.

Lemma digits_value_acc (u : Decimal.uint) (acc : positive) :
  fold_left (fun a c => a * 10 + (c - 48))%N (Url.digits u) (Npos acc)
  = Npos (Pos.of_uint_acc u acc).
Proof.
  revert acc.
  induction u; intros acc;
    cbn [Url.digits fold_left Pos.of_uint_acc]; try reflexivity;
    rewrite <- IHu; f_equal; lia.
Qed.

Lemma digits_value_of_uint (u : Decimal.uint) :
  Url.digits_value (Url.digits u) = N.of_uint u.
Proof.
  unfold Url.digits_value, N.of_uint.
  induction u; cbn [Url.digits fold_left Pos.of_uint]; try reflexivity;
    try exact IHu; apply (digits_value_acc u).
Qed.

Lemma Number_toString_digits (n : N) :
  Forall (fun c => (48 <= c <= 57)%N) (Url.Number_toString n).
Proof. apply digits_forall. auto. Qed.

Lemma Number_toString_not_nil (n : N) : Url.Number_toString n <> [].
Proof.
  unfold Url.Number_toString. destruct n as [|p]; [discriminate|].
  simpl. pose proof (DecimalPos.Unsigned.to_uint_nonnil p) as H.
  destruct (Pos.to_uint p); simpl; congruence.
Qed.

Lemma parseInt_Number_toString (n : N) :
  Url.parseInt (Url.Number_toString n) = Url.Int (Z.of_N n).
Proof.
  pose proof (Number_toString_digits n) as D.
  pose proof (Number_toString_not_nil n) as NN.
  pose proof (digits_value_of_uint (N.to_uint n)) as V.
  rewrite DecimalN.Unsigned.of_to in V.
  fold (Url.Number_toString n) in V.
  unfold Url.parseInt.
  destruct (Url.Number_toString n) as [|c ds]; [contradiction|].
  pose proof (Forall_inv D) as Hc. cbv beta in Hc.
  assert (T : trimStart (c :: ds) = c :: ds).
  { simpl. replace (is_trim_space c) with false; [reflexivity|].
    unfold is_trim_space.
    repeat match goal with
           | |- context [(?a <=? ?b)%N] =>
               destruct (N.leb_spec a b); try lia
           | |- context [(?a =? ?b)%N] =>
               destruct (N.eqb_spec a b); try lia
           end; reflexivity. }
  rewrite T.
  destruct (N.eqb_spec c 45); [lia|].
  destruct (N.eqb_spec c 43); [lia|].
  rewrite take_digits_all.
  - cbn [fst]. now rewrite V.
  - eapply Forall_impl; [|exact D]. intros a Ha. cbv beta in Ha.
    unfold is_digit. apply andb_true_intro. split; apply N.leb_le; lia.
Qed.

(** X12: the address of a chat is read back.  For a chat id from 1 up to
    the largest integer a double holds exactly, the path that [updateURL]
    pushes is ['/'] followed by the decimal digits of the id, and the start
    of the application, reading that path, loads the same chat; without a
    chat (null or 0) the path is ['/'] and no chat is loaded. *)
Theorem chat_address_round_trip (n : N) :
  (0 < n)%N ->
  (n <= 9007199254740991)%N ->
  Url.updateURL (Some n) = js "/" ++ Url.Number_toString n
  /\ Url.initial_chat (Url.updateURL (Some n)) = Some (Z.of_N n)
  /\ Url.updateURL None = js "/"
  /\ Url.updateURL (Some 0%N) = js "/"
  /\ Url.initial_chat (js "/") = None.
Proof.
  intros Hpos _.
  assert (U : Url.updateURL (Some n) = js "/" ++ Url.Number_toString n).
  { unfold Url.updateURL. cbn [falsy_id].
    destruct (N.eqb_spec n 0); [lia|reflexivity]. }
  split; [exact U|]. split; [|repeat split].
  rewrite U. unfold Url.initial_chat.
  change (js "/" ++ Url.Number_toString n)
    with (47%N :: Url.Number_toString n).
  cbn [split]. rewrite N.eqb_refl.
  rewrite split_without_sep.
  - cbn [nth_error].
    pose proof (parseInt_Number_toString n) as P.
    pose proof (Number_toString_not_nil n) as NN.
    destruct (Url.Number_toString n) as [|c ds]; [contradiction|].
    rewrite P. destruct (Z.eqb_spec (Z.of_N n) 0); [lia|reflexivity].
  - eapply Forall_impl; [|apply Number_toString_digits].
    intros a Ha. cbv beta in Ha. apply N.eqb_neq. lia.
Qed.

(** The theorem at the chat 42. *)
Lemma chat_address_witness :
  Url.initial_chat (Url.updateURL (Some 42%N)) = Some 42%Z.
Proof.
  refine (proj1 (proj2 (chat_address_round_trip 42 _ _))); lia.
Defined.

(* ================================================================== *)
(** * Further properties: the list of chats *)
(* ================================================================== *)

Lemma startsWith_app (p rest : jsstring) : startsWith p (p ++ rest) = true.
Proof.
  induction p as [|c p IH]; [reflexivity|].
  simpl. now rewrite N.eqb_refl, IH.
Qed.

Lemma strip_prefix_app (p rest : jsstring) :
  ChatList.strip_prefix p (p ++ rest) = rest.
Proof.
  unfold ChatList.strip_prefix. rewrite startsWith_app.
  now rewrite skipn_app, skipn_all, Nat.sub_diag.
Qed.

Lemma strip_suffix_app (suf s : jsstring) :
  ChatList.strip_suffix suf (s ++ suf) = s.
Proof.
  unfold ChatList.strip_suffix, ChatList.endsWith.
  rewrite rev_app_distr, startsWith_app, length_app.
  replace (length s + length suf - length suf) with (length s) by lia.
  now rewrite firstn_app, firstn_all, Nat.sub_diag, app_nil_r.
Qed.

(** X13: the title shown in the list of chats.  A title of the form
    'Chat about ' + topic + '...' is shown as the topic alone, for every
    topic without white space at its ends; a title with neither that prefix
    nor that suffix is shown trimmed. *)
Theorem display_title_recovers_topic (topic title : jsstring) :
  trim topic = topic ->
  startsWith (js "Chat about ") title = false ->
  ChatList.endsWith (js "...") title = false ->
  ChatList.displayTitle (js "Chat about " ++ topic ++ js "...") = topic
  /\ ChatList.displayTitle title = trim title.
Proof.
  intros Ht Hp Hs. unfold ChatList.displayTitle. split.
  - now rewrite strip_prefix_app, strip_suffix_app.
  - unfold ChatList.strip_prefix. rewrite Hp.
    unfold ChatList.strip_suffix. now rewrite Hs.
Qed.

(** The theorem at two titles. *)
Lemma display_title_witness :
  ChatList.displayTitle (js "Chat about " ++ js "sorting lists" ++ js "...")
  = js "sorting lists".
Proof.
  refine (proj1 (display_title_recovers_topic
                   (js "sorting lists") (js "  Plans ") eq_refl eq_refl
                   eq_refl)).
Defined.





Lemma tick_iter (n : nat) : Nat.iter n ChatList.tick 0 = n mod 4.
Proof.
  induction n as [|n IH]; [reflexivity|].
  change (Nat.iter (S n) ChatList.tick 0)
    with (ChatList.tick (Nat.iter n ChatList.tick 0)).
  rewrite IH. unfold ChatList.tick.
  rewrite Nat.Div0.add_mod_idemp_l. f_equal. lia.
Qed.

(** X15: the dots of the typing indicator of part_000.  After n ticks of
    its timer the indicator reads 'Assistant is typing' followed by n mod 4
    dots: never more than three, and the same text every four ticks. *)
Theorem typing_dots_cycle (n : nat) :
  ChatList.indicator_text (Nat.iter n ChatList.tick 0)
  = js "Assistant is typing" ++ repeat 46%N (n mod 4)
  /\ Nat.iter n ChatList.tick 0 <= 3
  /\ Nat.iter (n + 4) ChatList.tick 0 = Nat.iter n ChatList.tick 0.
Proof.
  rewrite !tick_iter. unfold ChatList.indicator_text. repeat split.
  - pose proof (Nat.mod_upper_bound n 4). lia.
  - replace (n + 4) with (n + 1 * 4) by lia. now rewrite Nat.Div0.mod_add.
Qed.

(** X16: deleting a chat.  The page changes only when the user confirmed,
    the server accepted and the chat deleted is the current one; then the
    messages are cleared and no chat is current, so that the next message
    first creates a chat and is posted to that new chat, in both clients.
    In every other case the page is left as it was. *)
Theorem deleting_the_current_chat (w : world) (c id : N)
        (p : page MainJs.exchange) (q : page Part000.exchange) :
  currentChatId p = Some c ->
  currentChatId q = Some c ->
  trim (messageInput p) <> [] ->
  trim (messageInput q) <> [] ->
  created w = Some id ->
  (id =? 0)%N = false ->
  (let p' := ChatList.deleteChat true true c p in
   chatMessages p' = [] /\ currentChatId p' = None
   /\ requests (fst (MainJs.start w p'))
      = requests p ++ [CreateChat (modelSelect p);
                       SendChat (trim (messageInput p)) (modelSelect p)
                                (Some id)])
  /\ (let q' := ChatList.deleteChat true true c q in
      chatMessages q' = [] /\ currentChatId q' = None
      /\ requests (fst (Part000.start w q'))
         = requests q ++ [CreateChat (modelSelect q);
                          SendChat (trim (messageInput q)) (modelSelect q)
                                   (Some id)])
  /\ (forall confirmed accepted other,
        confirmed && accepted = false \/ other <> c ->
        ChatList.deleteChat confirmed accepted other p = p
        /\ ChatList.deleteChat confirmed accepted other q = q).
Proof.
  intros Cp Cq Hp Hq Hc Hid. cbv zeta.
  assert (Dp : ChatList.deleteChat true true c p
               = mkPage (messageInput p) (modelSelect p) None
                        (lastUserMessage p) [] (requests p) (exchanges p)).
  { unfold ChatList.deleteChat. now rewrite Cp, N.eqb_refl. }
  assert (Dq : ChatList.deleteChat true true c q
               = mkPage (messageInput q) (modelSelect q) None
                        (lastUserMessage q) [] (requests q) (exchanges q)).
  { unfold ChatList.deleteChat. now rewrite Cq, N.eqb_refl. }
  rewrite Dp, Dq. split; [|split].
  - split; [reflexivity|]. split; [reflexivity|].
    exact (proj1 (proj2 (proj1
      (start_in_new_chat w id
         (mkPage (messageInput p) (modelSelect p) None (lastUserMessage p)
                 [] (requests p) (exchanges p))
         (mkPage (messageInput q) (modelSelect q) None (lastUserMessage q)
                 [] (requests q) (exchanges q))
         Hp Hq eq_refl eq_refl Hc Hid)))).
  - split; [reflexivity|]. split; [reflexivity|].
    exact (proj1 (proj2 (proj2
      (start_in_new_chat w id
         (mkPage (messageInput p) (modelSelect p) None (lastUserMessage p)
                 [] (requests p) (exchanges p))
         (mkPage (messageInput q) (modelSelect q) None (lastUserMessage q)
                 [] (requests q) (exchanges q))
         Hp Hq eq_refl eq_refl Hc Hid)))).
  - intros confirmed accepted other H. unfold ChatList.deleteChat.
    rewrite Cp, Cq.
    destruct confirmed, accepted; simpl in H; try (now split).
    destruct H as [H|H]; [discriminate|].
    destruct (N.eqb_spec c other); [congruence|now split].
Qed.

(** The theorem at the deletion of the open chat 4. *)
Lemma deleting_the_current_chat_witness :
  currentChatId
    (ChatList.deleteChat true true 4%N
       (mkPage (js "hello") (js "llama3") (Some 4%N) []
               [UserMessage (js "old")] [] ([] : list MainJs.exchange)))
  = None.
Proof.
  refine (proj1 (proj2 (proj1 (deleting_the_current_chat
    (mkWorld (Some 7%N) true true []) 4 7
    (mkPage (js "hello") (js "llama3") (Some 4%N) []
            [UserMessage (js "old")] [] [])
    (mkPage (js "hello") (js "llama3") (Some 4%N) []
            [UserMessage (js "old")] [] [])
    eq_refl eq_refl _ _ eq_refl eq_refl)))); vm_compute; discriminate.
Defined.

(* ================================================================== *)
(** * Further properties: blank input, silent ends *)
(* ================================================================== *)

Lemma trimStart_nil_iff (s : jsstring) :
  trimStart s = [] <-> Forall (fun c => is_trim_space c = true) s.
Proof.
  induction s as [|c s IH]; simpl.
  - split; [constructor|reflexivity].
  - destruct (is_trim_space c) eqn:E.
    + rewrite IH. split; [now constructor|now inversion 1].
    + split; [discriminate|]. inversion 1; congruence.
Qed.

Lemma trimStart_head (s t : jsstring) (c : code_unit) :
  trimStart s = c :: t -> is_trim_space c = false.
Proof.
  induction s as [|a s IH]; simpl; [discriminate|].
  destruct (is_trim_space a) eqn:E; [exact IH|]. now intros [= <- _].
Qed.

Lemma trimEnd_nil_iff (s : jsstring) :
  trimEnd s = [] <-> Forall (fun c => is_trim_space c = true) s.
Proof.
  unfold trimEnd. split.
  - intros H. apply (f_equal (@rev code_unit)) in H.
    rewrite rev_involutive in H. simpl in H.
    apply trimStart_nil_iff in H. apply Forall_rev in H.
    now rewrite rev_involutive in H.
  - intros H. apply Forall_rev in H. apply trimStart_nil_iff in H.
    now rewrite H.
Qed.

Lemma trim_nil_iff (s : jsstring) :
  trim s = [] <-> Forall (fun c => is_trim_space c = true) s.
Proof.
  unfold trim. rewrite trimEnd_nil_iff. split.
  - intros H. apply trimStart_nil_iff.
    destruct (trimStart s) as [|c t] eqn:E; [reflexivity|].
    apply trimStart_head in E. inversion H; congruence.
  - intros H. apply trimStart_nil_iff in H. rewrite H. constructor.
Qed.

(** X17: which inputs are sent.  With a chat open, [sendMessage] creates
    no activation exactly when every code unit of the input is white space
    or a line terminator; an input with any other character is sent, as its
    trimmed text.  In both clients. *)
Theorem message_is_sent_iff_not_blank (w : world)
        (p : page MainJs.exchange) (q : page Part000.exchange) :
  falsy_id (currentChatId p) = false ->
  falsy_id (currentChatId q) = false ->
  (snd (MainJs.start w p) = None
   <-> Forall (fun c => is_trim_space c = true) (messageInput p))
  /\ (snd (Part000.start w q) = None
      <-> Forall (fun c => is_trim_space c = true) (messageInput q))
  /\ (snd (MainJs.start w p) <> None ->
      requests (fst (MainJs.start w p))
      = requests p ++ [SendChat (trim (messageInput p)) (modelSelect p)
                                (currentChatId p)])
  /\ (snd (Part000.start w q) <> None ->
      requests (fst (Part000.start w q))
      = requests q ++ [SendChat (trim (messageInput q)) (modelSelect q)
                                (currentChatId q)]).
Proof.
  intros Fp Fq.
  rewrite <- (trim_nil_iff (messageInput p)).
  rewrite <- (trim_nil_iff (messageInput q)).
  unfold MainJs.start, Part000.start.
  destruct (trim (messageInput p)) as [|a m];
    destruct (trim (messageInput q)) as [|b n];
    cbn [currentChatId]; rewrite ?Fp, ?Fq; cbn;
    repeat split; try congruence; try discriminate.
Qed.

(** The theorem at an input of a word between blanks. *)
Lemma message_is_sent_witness :
  requests
    (fst (MainJs.start (mkWorld None true true [])
            (mkPage (js "  hi ") (js "llama3") (Some 4%N) [] [] [] [])))
  = [] ++ [SendChat (trim (js "  hi ")) (js "llama3") (Some 4%N)].
Proof.
  refine (proj1 (proj2 (proj2 (message_is_sent_iff_not_blank
    (mkWorld None true true [])
    (mkPage (js "  hi ") (js "llama3") (Some 4%N) [] [] [] [])
    (mkPage [] [] (Some 4%N) [] [] [] [])
    eq_refl eq_refl))) _).
  vm_compute. discriminate.
Defined.

Lemma part_resume_done (y : Part000.exchange) :
  Part000.state y = Reading ->
  Part000.resume ReadDone y
  = Part000.set_state Completed (Part000.set_indicator false y).
Proof. intros H. unfold Part000.resume. now rewrite H. Qed.

(** X18: a failure after the final answer is not shown.  In part_000, when
    a read fails after the events of the stream included a final event (and
    the user opened no toggle), the error message is written into the chain
    panel, which is hidden: what stays displayed is the final answer of the
    last final event, and the indicator is removed. *)
Theorem error_after_final_answer_is_hidden
        (evs : list (jsstring * jsstring)) (c : jsstring) :
  last_final evs = Some c ->
  let y := Part000.resume ReadError
             (Part000.apply_events (typed_events evs) Part000.fresh) in
  Part000.chainContainer y = [Part000.TextNode error_message]
  /\ Part000.chainDisplay y = Part000.DisplayNone
  /\ Part000.finalContainer y = Rendered c
  /\ Part000.finalDisplay y = Part000.DisplayBlock
  /\ Part000.indicator y = false
  /\ Part000.phase_of y = failed.
Proof.
  intros H. cbv zeta.
  destruct (typed_events_final evs Part000.fresh) as (A & _ & _ & D & E).
  rewrite H in A, D, E.
  rewrite part_resume_error
    by (now rewrite part_apply_events_state).
  cbn. repeat split; assumption.
Qed.

(** The theorem at a chain event followed by the final event. *)
Lemma error_after_final_witness :
  Part000.chainDisplay
    (Part000.resume ReadError
       (Part000.apply_events
          (typed_events [(js "chain", js "Critic: too vague");
                         (js "final", js "Done.")])
          Part000.fresh))
  = Part000.DisplayNone.
Proof.
  refine (proj1 (proj2 (error_after_final_answer_is_hidden
    [(js "chain", js "Critic: too vague"); (js "final", js "Done.")]
    (js "Done.") eq_refl))).
Defined.

Lemma main_apply_events_run (events : list value) (x : MainJs.exchange) :
  MainJs.state (MainJs.apply_events events x) = MainJs.state x.
Proof.
  revert x. induction events as [|d ds IH]; intros x; [reflexivity|].
  change (MainJs.apply_events (d :: ds) x)
    with (MainJs.apply_events ds (MainJs.dispatch d x)).
  rewrite IH. unfold MainJs.dispatch, MainJs.handle_data, try_catch, bind,
    lift.
  destruct (get_prop (js "response") d) as [r|]; [|reflexivity].
  unfold ret. destruct (truthy r); reflexivity.
Qed.

(** X19: a stream that ends without content.  In main.js, when the stream
    ends after token events whose fragments are all empty (or after none),
    the assistant element still reads 'Assistant is typing...': nothing
    replaces the typing text at the end of the stream.  In part_000, when
    the stream ends after no chain and no final event, the assistant element
    is left with an empty chain panel and a hidden, empty final-answer
    container, the indicator removed. *)
Theorem answer_without_content (mss : list (list (jsstring * value)))
        (rs : list jsstring) (at_bottom : bool) (quiet : list jsstring) :
  Forall2 (fun ms r => lookup (js "response") ms = VStr r) mss rs ->
  concat rs = [] ->
  Forall (fun l => startsWith (js "data: ") l = false) (decoded_lines quiet) ->
  (let x := MainJs.resume ReadDone
              (MainJs.apply_events (map VObj mss) (MainJs.fresh at_bottom)) in
   MainJs.state x = Completed
   /\ MainJs.assistantMessageEl x = TextContent (js "Assistant is typing..."))
  /\ (let y := Part000.resume ReadDone
                 (Part000.run_chunks quiet Part000.fresh) in
      Part000.state y = Completed
      /\ Part000.chainContainer y = []
      /\ Part000.finalContainer y = Empty
      /\ Part000.finalDisplay y = Part000.DisplayNone
      /\ Part000.indicator y = false).
Proof.
  intros H Hc Hq. cbv zeta. split.
  - destruct (main_tokens_accumulate mss rs H (MainJs.fresh at_bottom)
                eq_refl) as (F & D & S).
    simpl in F. rewrite F, Hc in D. simpl in S, D.
    unfold MainJs.resume. rewrite S. simpl. split; [reflexivity|exact D].
  - rewrite part_run_chunks_lines by reflexivity.
    rewrite (part_line_run_ignored _ _ Hq).
    unfold Part000.resume. simpl. repeat split.
Qed.

(** The theorem at a stream of one empty fragment, and at a stream of one
    comment line. *)
Lemma answer_without_content_witness :
  MainJs.assistantMessageEl
    (MainJs.resume ReadDone
       (MainJs.apply_events (map VObj [[(js "response", VStr [])]])
                            (MainJs.fresh true)))
  = TextContent (js "Assistant is typing...").
Proof.
  refine (proj2 (proj1 (answer_without_content
    [[(js "response", VStr [])]] [[]] true [js ": ping" ++ [LF]] _ eq_refl _))).
  - repeat constructor.
  - repeat constructor.
Defined.


(* ================================================================== *)
(** * Further properties: attaching a file *)
(* ================================================================== *)

Lemma trimStart_keeps_suffix (a b : jsstring) (c : code_unit) :
  is_trim_space c = false ->
  exists pre, trimStart (a ++ c :: b) = pre ++ c :: b.
Proof.
  intros Hc. induction a as [|x a IH]; simpl.
  - rewrite Hc. now exists [].
  - destruct (is_trim_space x); [exact IH|].
    now exists (x :: a).
Qed.

Lemma trimEnd_keeps_last (s : jsstring) (c : code_unit) :
  is_trim_space c = false -> trimEnd (s ++ [c]) = s ++ [c].
Proof.
  intros Hc. unfold trimEnd. rewrite rev_app_distr. simpl. rewrite Hc.
  simpl. now rewrite rev_involutive.
Qed.

Lemma trim_keeps_note (text filename : jsstring) :
  exists pre,
    trim (text ++ LF :: Upload.note filename) = pre ++ Upload.note filename.
Proof.
  unfold trim, Upload.note.
  change (js "[Attached file: " ++ filename ++ js "]")
    with (91%N :: (js "Attached file: " ++ filename ++ js "]")).
  destruct (trimStart_keeps_suffix (text ++ [LF])
              (js "Attached file: " ++ filename ++ js "]") 91%N eq_refl)
    as [pre E].
  rewrite <- app_assoc in E. cbn [app] in E.
  exists pre.
  transitivity
    (trimEnd (pre ++ 91%N :: js "Attached file: " ++ filename ++ js "]"));
    [apply f_equal; exact E|].
  change (js "]") with [93%N].
  replace (pre ++ 91%N :: js "Attached file: " ++ filename ++ [93%N])
    with ((pre ++ 91%N :: js "Attached file: " ++ filename) ++ [93%N])
    by (rewrite <- app_assoc; cbn [app]; f_equal; f_equal;
        now rewrite <- app_assoc).
  now apply trimEnd_keeps_last.
Qed.

(** X20: attaching a file.  Without a file nothing happens and nothing is
    posted.  With a file and a chat open, a successful upload appends a line
    feed and the note '[Attached file: name]' to the input, and the message
    sent next ends with that note whatever the input held, even blanks
    only: the note is never trimmed away.  The result of the chat creation
    is not checked: with no chat open and a creation that fails, the file is
    still posted, to an address whose chat id reads 'null'. *)
Theorem attachment_note_is_sent (w w' : world) (filename : jsstring)
        (uploaded : option jsstring)
        (p : page MainJs.exchange) (q : page Part000.exchange) :
  falsy_id (currentChatId p) = false ->
  falsy_id (currentChatId q) = false ->
  (Upload.handleFileUpload Upload.upload_url_main w false uploaded p
   = (p, None))
  /\ (let p' := fst (Upload.handleFileUpload Upload.upload_url_main w true
                       (Some filename) p) in
      messageInput p' = messageInput p ++ LF :: Upload.note filename
      /\ exists pre,
          requests (fst (MainJs.start w' p'))
          = requests p ++ [SendChat (pre ++ Upload.note filename)
                                    (modelSelect p) (currentChatId p)])
  /\ (let q' := fst (Upload.handleFileUpload Upload.upload_url_part w true
                       (Some filename) q) in
      messageInput q' = messageInput q ++ LF :: Upload.note filename
      /\ exists pre,
          requests (fst (Part000.start w' q'))
          = requests q ++ [SendChat (pre ++ Upload.note filename)
                                    (modelSelect q) (currentChatId q)])
  /\ (forall (r : page MainJs.exchange) (s : page Part000.exchange),
        currentChatId r = None -> currentChatId s = None ->
        created w = None ->
        snd (Upload.handleFileUpload Upload.upload_url_main w true
               uploaded r)
        = Some (js "/chat/null/upload")
        /\ snd (Upload.handleFileUpload Upload.upload_url_part w true
                  uploaded s)
           = Some (js "/api/files/null/upload")).
Proof.
  intros Fp Fq. split; [reflexivity|]. split; [|split].
  - cbv zeta. unfold Upload.handleFileUpload. rewrite Fp. cbn [fst].
    split; [reflexivity|].
    destruct (trim_keeps_note (messageInput p) filename) as [pre E].
    exists pre. unfold MainJs.start. cbn [messageInput]. rewrite E.
    assert (N : pre ++ Upload.note filename <> []).
    { unfold Upload.note. destruct pre; discriminate. }
    destruct (pre ++ Upload.note filename) as [|a m] eqn:M; [contradiction|].
    cbn [currentChatId]. rewrite Fp. reflexivity.
  - cbv zeta. unfold Upload.handleFileUpload. rewrite Fq. cbn [fst].
    split; [reflexivity|].
    destruct (trim_keeps_note (messageInput q) filename) as [pre E].
    exists pre. unfold Part000.start. cbn [messageInput]. rewrite E.
    assert (N : pre ++ Upload.note filename <> []).
    { unfold Upload.note. destruct pre; discriminate. }
    destruct (pre ++ Upload.note filename) as [|a m] eqn:M; [contradiction|].
    cbn [currentChatId]. rewrite Fq. reflexivity.
  - intros r s Hr Hs Hc. unfold Upload.handleFileUpload, createNewChat.
    rewrite Hr, Hs, Hc. cbn [falsy_id fst currentChatId].
    destruct uploaded; cbn [snd]; rewrite ?Hr, ?Hs; split; reflexivity.
Qed.

(** The theorem at a blank input and the file notes.txt. *)
Lemma attachment_note_witness :
  messageInput
    (fst (Upload.handleFileUpload Upload.upload_url_main
            (mkWorld None true true []) true (Some (js "notes.txt"))
            (mkPage (js "  ") (js "llama3") (Some 4%N) [] [] []
                    ([] : list MainJs.exchange))))
  = js "  " ++ LF :: Upload.note (js "notes.txt").
Proof.
  refine (proj1 (proj1 (proj2 (attachment_note_is_sent
    (mkWorld None true true []) (mkWorld None true true [])
    (js "notes.txt") None
    (mkPage (js "  ") (js "llama3") (Some 4%N) [] [] [] [])
    (mkPage [] [] (Some 4%N) [] [] [] [])
    eq_refl eq_refl)))).
Defined.

